(** * Paginated GitHub listings and integer schema fields

    A shallow embedding of [src/github.py] (the three paginated listing
    helpers) and of the integer field factories of [src/schemas.py],
    together with the properties the specification states about them.

    The Python code talks to two libraries: [requests] for HTTP and
    [marshmallow] for schema fields.  Both are modelled as far as the
    code observes them: an HTTP exchange is an oracle from the requests
    sent so far and the current request to either a raised exception or a
    response; a marshmallow field is the record of the constructor
    arguments the factories pass, with the documented deserialisation of
    [fields.Integer]. *)

From Stdlib Require Import ZArith List String Ascii Bool Lia DecimalString.
Import ListNotations.
Local Open Scope string_scope.
Local Open Scope Z_scope.
Set Warnings "-register-all".

(** ** Decoded JSON values and their Python rendering *)

(** What [response.json()] returns.  A float is carried as the text
    Python prints for it, the only thing the code observes of a float.
    An object is the decoded [dict] as its items in insertion order. *)
Inductive jvalue : Type :=
| JNull
| JBool (b : bool)
| JInt (n : Z)
| JFloat (shown : string)
| JStr (s : string)
| JArr (items : list jvalue)
| JObj (fields : list (string * jvalue)).

Abbreviation pydict := (list (string * jvalue)).

Module PyText.

Definition quote1 : ascii := "'"%char.
Definition quote2 : ascii := ascii_of_nat 34.
Definition backslash : ascii := ascii_of_nat 92.

Fixpoint mem (c : ascii) (s : string) : bool :=
  match s with
  | EmptyString => false
  | String d s' => Ascii.eqb c d || mem c s'
  end.

Definition hex_digit (n : nat) : ascii :=
  match n with
  | 0%nat => "0" | 1%nat => "1" | 2%nat => "2" | 3%nat => "3"
  | 4%nat => "4" | 5%nat => "5" | 6%nat => "6" | 7%nat => "7"
  | 8%nat => "8" | 9%nat => "9" | 10%nat => "a" | 11%nat => "b"
  | 12%nat => "c" | 13%nat => "d" | 14%nat => "e" | _ => "f"
  end%char.

(** One character of [repr] of a [str], for the chosen quote.  Bytes
    from 128 up belong to encoded printable characters and are kept. *)
Definition escape (q c : ascii) : string :=
  let n := nat_of_ascii c in
  if Ascii.eqb c q || Ascii.eqb c backslash then String backslash (String c "")
  else if Nat.eqb n 9 then String backslash "t"
  else if Nat.eqb n 10 then String backslash "n"
  else if Nat.eqb n 13 then String backslash "r"
  else if Nat.ltb n 32 || Nat.eqb n 127 then
    String backslash
      (String "x" (String (hex_digit (n / 16)) (String (hex_digit (n mod 16)) "")))
  else String c "".

Fixpoint escape_all (q : ascii) (s : string) : string :=
  match s with
  | EmptyString => EmptyString
  | String c s' => escape q c ++ escape_all q s'
  end.

(** [repr(s)] for a [str]: single quotes, unless the text has a single
    quote and no double quote. *)
Definition repr_str (s : string) : string :=
  let q := if mem quote1 s && negb (mem quote2 s) then quote2 else quote1 in
  String q (escape_all q s ++ String q "").

Definition str_int (n : Z) : string := NilZero.string_of_int (Z.to_int n).

Fixpoint join (sep : string) (l : list string) : string :=
  match l with
  | [] => ""
  | [x] => x
  | x :: rest => x ++ sep ++ join sep rest
  end.

(** [repr(v)] of a decoded JSON value. *)
Fixpoint repr (v : jvalue) : string :=
  match v with
  | JNull => "None"
  | JBool true => "True"
  | JBool false => "False"
  | JInt n => str_int n
  | JFloat shown => shown
  | JStr s => repr_str s
  | JArr items => "[" ++ join ", " (map repr items) ++ "]"
  | JObj fields =>
      "{" ++ join ", " (map (fun kv => repr_str (fst kv) ++ ": " ++ repr (snd kv)) fields)
          ++ "}"
  end.

(** [str(v)]: a [str] is itself, everything else as [repr]. *)
Definition str (v : jvalue) : string :=
  match v with
  | JStr s => s
  | _ => repr v
  end.

End PyText.

(** ** Exceptions *)

(** The exception classes the handlers tell apart.  [Timeout],
    [TooManyRedirects] and [RequestException] are the classes of
    [requests.exceptions] named in the [except] clauses, the last one
    standing for every other member of that hierarchy; [KeyError] and
    [TypeError] come from subscripting and iterating; [OtherError] is any
    further subclass of [Exception] a library may raise.  [Exception]
    carries a message, [Exception_from] wraps another exception, as
    [Exception(e)] does. *)
Inductive exn : Type :=
| Timeout (detail : string)
| TooManyRedirects (detail : string)
| RequestException (detail : string)
| KeyError (key : string)
| TypeError (detail : string)
| OtherError (detail : string)
| Exception (message : string)
| Exception_from (cause : exn).

(** [str(e)]. *)
Fixpoint str (e : exn) : string :=
  match e with
  | Timeout d | TooManyRedirects d | RequestException d => d
  | KeyError k => PyText.repr_str k
  | TypeError d | OtherError d => d
  | Exception m => m
  | Exception_from e' => str e'
  end.

(** The class of the raised object is exactly [Exception]. *)
Definition is_plain_exception (e : exn) : bool :=
  match e with
  | Exception _ | Exception_from _ => true
  | _ => false
  end.

(** The classes caught by the first three [except] clauses. *)
Definition is_transport (e : exn) : bool :=
  match e with
  | Timeout _ | TooManyRedirects _ | RequestException _ => true
  | _ => false
  end.

(** ** Subscripting and iterating decoded JSON *)

Fixpoint lookup (k : string) (fields : list (string * jvalue)) : option jvalue :=
  match fields with
  | [] => None
  | (k', v) :: rest => if String.eqb k k' then Some v else lookup k rest
  end.

(** [v[key]] for a [str] key. *)
Definition subscript (v : jvalue) (key : string) : exn + jvalue :=
  match v with
  | JObj fields =>
      match lookup key fields with
      | Some x => inr x
      | None => inl (KeyError key)
      end
  | JArr _ => inl (TypeError "list indices must be integers or slices, not str")
  | JStr _ => inl (TypeError "string indices must be integers, not 'str'")
  | JNull => inl (TypeError "'NoneType' object is not subscriptable")
  | JBool _ => inl (TypeError "'bool' object is not subscriptable")
  | JInt _ => inl (TypeError "'int' object is not subscriptable")
  | JFloat _ => inl (TypeError "'float' object is not subscriptable")
  end.

Fixpoint chars (s : string) : list jvalue :=
  match s with
  | EmptyString => []
  | String c s' => JStr (String c "") :: chars s'
  end.

(** What [for x in v] ranges over: the items of a list, the keys of a
    dict, the characters of a [str]. *)
Definition iterate (v : jvalue) : exn + list jvalue :=
  match v with
  | JArr items => inr items
  | JObj fields => inr (map (fun kv => JStr (fst kv)) fields)
  | JStr s => inr (chars s)
  | JNull => inl (TypeError "'NoneType' object is not iterable")
  | JBool _ => inl (TypeError "'bool' object is not iterable")
  | JInt _ => inl (TypeError "'int' object is not iterable")
  | JFloat _ => inl (TypeError "'float' object is not iterable")
  end.

(** ** HTTP exchanges, the log and the effect monad *)

(** The arguments of one [requests.get] call. *)
Record request : Type := {
  url : string;
  timeout : Z;
  headers : list (string * string);
  params : list (string * jvalue)
}.

(** What the code reads of a response: the status code and the result
    of [response.json()], which raises when the body does not decode. *)
Record response : Type := {
  status_code : Z;
  json : exn + jvalue
}.

(** The network and the remote host: given the requests already sent
    (most recent first) and the current one, [requests.get] either
    raises or returns a response. *)
Definition transport := list request -> request -> exn + response.

(** The observable effects of a call: requests sent and lines written
    with [logger.error], both most recent first. *)
Record state : Type := {
  sent : list request;
  log : list string
}.

(** A call returns, raises, or is still recursing when the fuel that
    bounds the depth of the recursion is used up. *)
Inductive outcome (A : Type) : Type :=
| Return (a : A)
| Raise (e : exn)
| OutOfFuel.
Arguments Return {A} a.
Arguments Raise {A} e.
Arguments OutOfFuel {A}.

Definition M (A : Type) : Type := state -> outcome A * state.

Definition ret {A} (a : A) : M A := fun st => (Return a, st).

Definition raise {A} (e : exn) : M A := fun st => (Raise e, st).

Definition out_of_fuel {A} : M A := fun st => (OutOfFuel, st).

Definition bind {A B} (m : M A) (k : A -> M B) : M B :=
  fun st =>
    match m st with
    | (Return a, st') => k a st'
    | (Raise e, st') => (Raise e, st')
    | (OutOfFuel, st') => (OutOfFuel, st')
    end.

Declare Scope py_scope.
Delimit Scope py_scope with py.
Notation "x <- m ;; k" := (bind m (fun x => k))
  (at level 100, m at next level, right associativity) : py_scope.
Notation "m ;;; k" := (bind m (fun _ => k))
  (at level 100, right associativity) : py_scope.
Local Open Scope py_scope.

(** A pure step that may raise. *)
Definition lift {A} (r : exn + A) : M A :=
  match r with
  | inl e => raise e
  | inr a => ret a
  end.

(** [try: body] followed by the [except] clauses, given as one function
    of the exception caught. *)
Definition try_except {A} (body : M A) (handler : exn -> M A) : M A :=
  fun st =>
    match body st with
    | (Raise e, st') => handler e st'
    | other => other
    end.

Definition logger_error (line : string) : M unit :=
  fun st => (Return tt, {| sent := sent st; log := line :: log st |}).

Definition requests_get (server : transport) (r : request) : M response :=
  fun st =>
    let st' := {| sent := r :: sent st; log := log st |} in
    match server (sent st) r with
    | inl e => (Raise e, st')
    | inr resp => (Return resp, st')
    end.

(** The body of a [for] loop that appends one value per item, run over
    the items in order. *)
Fixpoint for_each {A} (items : list jvalue) (body : jvalue -> M A) : M (list A) :=
  match items with
  | [] => ret []
  | x :: rest =>
      a <- body x ;;
      l <- for_each rest body ;;
      ret (a :: l)
  end.

Definition for_in {A} (v : jvalue) (body : jvalue -> M A) : M (list A) :=
  items <- lift (iterate v) ;;
  for_each items body.

(** [len(l)] of a Python list. *)
Definition len {A} (l : list A) : Z := Z.of_nat (List.length l).

(** ** The listing functions of [github.py] *)

Section Github.

Variable server : transport.

Fixpoint list_organizations (fuel : nat) (access_token : string)
    (page_size page : Z) : M (list pydict) :=
  match fuel with
  | O => out_of_fuel
  | S fuel =>
    let exception := Exception "Error retrieving Github organizations." in
    try_except
      (response <- requests_get server
          {| url := "https://api.github.com/user/orgs";
             timeout := 10;
             headers := [("Accept", "vnd.github.v3+json");
                         ("Authorization", "token " ++ access_token)];
             params := [("page", JInt page); ("per_page", JInt page_size)] |} ;;
       orgs_json <- lift (json response) ;;
       (if negb (status_code response =? 200) then
          message <- lift (subscript orgs_json "message") ;;
          raise (Exception ("Error listing organizations: " ++ PyText.str message))
        else ret tt) ;;;
       orgs <- for_in orgs_json (fun org =>
          id <- lift (subscript org "login") ;;
          name <- lift (subscript org "login") ;;
          ret [("id", id); ("name", name)]) ;;
       if len orgs =? page_size then
         next_orgs <- list_organizations fuel access_token page_size (page + 1) ;;
         ret (orgs ++ next_orgs)%list
       else ret orgs)
      (fun e =>
         match e with
         | Timeout _ =>
             logger_error ("Request timed out. " ++ str e) ;;; raise exception
         | TooManyRedirects _ =>
             logger_error ("Too many redirects. " ++ str e) ;;; raise exception
         | RequestException _ =>
             logger_error ("Request error occurred. " ++ str e) ;;; raise exception
         | _ =>
             logger_error ("Error listing Github organizations: " ++ str e) ;;;
             raise (Exception_from e)
         end)
  end.

Fixpoint list_user_repos (fuel : nat) (access_token : string)
    (page_size page : Z) : M (list pydict) :=
  match fuel with
  | O => out_of_fuel
  | S fuel =>
    let exception := Exception "Error retrieving Github repositories for user." in
    try_except
      (response <- requests_get server
          {| url := "https://api.github.com/user/repos";
             timeout := 10;
             headers := [("Accept", "vnd.github.v3+json");
                         ("Authorization", "token " ++ access_token)];
             params := [("page", JInt page); ("sort", JStr "full_name");
                        ("per_page", JInt page_size); ("type", JStr "all")] |} ;;
       repos_json <- lift (json response) ;;
       (if negb (status_code response =? 200) then
          message <- lift (subscript repos_json "message") ;;
          raise (Exception ("Error listing repositories: " ++ PyText.str message))
        else ret tt) ;;;
       repos <- for_in repos_json (fun repo =>
          id <- lift (subscript repo "name") ;;
          name <- lift (subscript repo "name") ;;
          ret [("id", id); ("name", name)]) ;;
       if len repos =? page_size then
         next_repos <- list_user_repos fuel access_token page_size (page + 1) ;;
         ret (repos ++ next_repos)%list
       else ret repos)
      (fun e =>
         match e with
         | Timeout _ =>
             logger_error ("Request timed out. " ++ str e) ;;; raise exception
         | TooManyRedirects _ =>
             logger_error ("Too many redirects. " ++ str e) ;;; raise exception
         | RequestException _ =>
             logger_error ("Request error occurred. " ++ str e) ;;; raise exception
         | _ =>
             logger_error ("Error listing Github Repositories: " ++ str e) ;;;
             raise (Exception_from e)
         end)
  end.

Fixpoint list_org_repos (fuel : nat) (access_token org_id : string)
    (page_size page : Z) : M (list pydict) :=
  match fuel with
  | O => out_of_fuel
  | S fuel =>
    let exception := Exception "Error retrieving Github repositories for org." in
    try_except
      (response <- requests_get server
          {| url := "https://api.github.com/orgs/" ++ org_id ++ "/repos";
             timeout := 10;
             headers := [("Accept", "vnd.github.v3+json");
                         ("Authorization", "token " ++ access_token)];
             params := [("page", JInt page); ("sort", JStr "full_name");
                        ("per_page", JInt page_size); ("type", JStr "all")] |} ;;
       repos_json <- lift (json response) ;;
       (if negb (status_code response =? 200) then
          message <- lift (subscript repos_json "message") ;;
          raise (Exception ("Error listing repositories: " ++ PyText.str message))
        else ret tt) ;;;
       repos <- for_in repos_json (fun repo =>
          id <- lift (subscript repo "name") ;;
          name <- lift (subscript repo "name") ;;
          ret [("id", id); ("name", name)]) ;;
       if len repos =? page_size then
         next_repos <- list_org_repos fuel access_token org_id page_size (page + 1) ;;
         ret (repos ++ next_repos)%list
       else ret repos)
      (fun e =>
         match e with
         | Timeout _ =>
             logger_error ("Request timed out. " ++ str e) ;;; raise exception
         | TooManyRedirects _ =>
             logger_error ("Too many redirects. " ++ str e) ;;; raise exception
         | RequestException _ =>
             logger_error ("Request error occurred. " ++ str e) ;;; raise exception
         | _ =>
             logger_error ("Error listing Github Organization Repositories: " ++ str e) ;;;
             raise (Exception_from e)
         end)
  end.

End Github.

(** ** One page of a listing, as the three functions share it *)

(** The three functions, for statements that hold of each of them. *)
Inductive listing : Type :=
| Organizations
| UserRepos
| OrgRepos (org_id : string).

Definition call (server : transport) (f : listing) (fuel : nat)
    (access_token : string) (page_size page : Z) : M (list pydict) :=
  match f with
  | Organizations => list_organizations server fuel access_token page_size page
  | UserRepos => list_user_repos server fuel access_token page_size page
  | OrgRepos org_id => list_org_repos server fuel access_token org_id page_size page
  end.

(** The request a function sends for a page. *)
Definition page_request (f : listing) (access_token : string)
    (page_size page : Z) : request :=
  {| url := match f with
            | Organizations => "https://api.github.com/user/orgs"
            | UserRepos => "https://api.github.com/user/repos"
            | OrgRepos org_id => "https://api.github.com/orgs/" ++ org_id ++ "/repos"
            end;
     timeout := 10;
     headers := [("Accept", "vnd.github.v3+json");
                 ("Authorization", "token " ++ access_token)];
     params := match f with
               | Organizations => [("page", JInt page); ("per_page", JInt page_size)]
               | _ => [("page", JInt page); ("sort", JStr "full_name");
                       ("per_page", JInt page_size); ("type", JStr "all")]
               end |}.

Definition item_key (f : listing) : string :=
  match f with
  | Organizations => "login"
  | _ => "name"
  end.

Definition api_error_prefix (f : listing) : string :=
  match f with
  | Organizations => "Error listing organizations: "
  | _ => "Error listing repositories: "
  end.

(** The text of the exception each function builds before its [try]. *)
Definition fixed_message (f : listing) : string :=
  match f with
  | Organizations => "Error retrieving Github organizations."
  | UserRepos => "Error retrieving Github repositories for user."
  | OrgRepos _ => "Error retrieving Github repositories for org."
  end.

Definition log_context (f : listing) : string :=
  match f with
  | Organizations => "Error listing Github organizations: "
  | UserRepos => "Error listing Github Repositories: "
  | OrgRepos _ => "Error listing Github Organization Repositories: "
  end.

(** The mapping appended for an item whose key holds [v]. *)
Definition mapping (v : jvalue) : pydict := [("id", v); ("name", v)].

(** The [for] loop as a pure function: the mappings of the items in
    order, or the exception of the first item that cannot be
    subscripted. *)
Fixpoint map_items (key : string) (items : list jvalue) : exn + list pydict :=
  match items with
  | [] => inr []
  | x :: rest =>
      match subscript x key with
      | inl e => inl e
      | inr v =>
          match map_items key rest with
          | inl e => inl e
          | inr l => inr (mapping v :: l)
          end
      end
  end.

(** What one page amounts to inside the [try] block, before any
    recursive call: an exception, a page that ends the listing, or a
    page of exactly [page_size] mappings. *)
Inductive page_result : Type :=
| Failed (e : exn)
| LastPage (mapped : list pydict)
| FullPage (mapped : list pydict).

Definition page_result_of (f : listing) (page_size : Z)
    (answer : exn + response) : page_result :=
  match answer with
  | inl e => Failed e
  | inr resp =>
      match json resp with
      | inl e => Failed e
      | inr body =>
          if negb (status_code resp =? 200) then
            match subscript body "message" with
            | inl e => Failed e
            | inr message => Failed (Exception (api_error_prefix f ++ PyText.str message))
            end
          else
            match iterate body with
            | inl e => Failed e
            | inr items =>
                match map_items (item_key f) items with
                | inl e => Failed e
                | inr mapped =>
                    if len mapped =? page_size then FullPage mapped else LastPage mapped
                end
            end
      end
  end.

(** The four [except] clauses: the exception raised and the line logged
    for a caught exception [e]. *)
Definition reraised (f : listing) (e : exn) : exn :=
  if is_transport e then Exception (fixed_message f) else Exception_from e.

Definition log_line (f : listing) (e : exn) : string :=
  match e with
  | Timeout _ => "Request timed out. " ++ str e
  | TooManyRedirects _ => "Too many redirects. " ++ str e
  | RequestException _ => "Request error occurred. " ++ str e
  | _ => log_context f ++ str e
  end.

Definition with_request (r : request) (st : state) : state :=
  {| sent := r :: sent st; log := log st |}.

Definition with_log (line : string) (st : state) : state :=
  {| sent := sent st; log := line :: log st |}.

Definition caught (f : listing) (e : exn) (st : state) : outcome (list pydict) * state :=
  (Raise (reraised f e), with_log (log_line f e) st).

(** One unfolding of a listing function at a page, given the run of the
    recursive call for the next page. *)
Definition unfolded (f : listing) (page_size : Z) (answer : exn + response)
    (next : state -> outcome (list pydict) * state) (st1 : state)
    : outcome (list pydict) * state :=
  match page_result_of f page_size answer with
  | Failed e => caught f e st1
  | LastPage mapped => (Return mapped, st1)
  | FullPage mapped =>
      match next st1 with
      | (Return rest, st2) => (Return (mapped ++ rest)%list, st2)
      | (Raise e, st2) => caught f e st2
      | (OutOfFuel, st2) => (OutOfFuel, st2)
      end
  end.

(** The page numbers asked for, oldest first, among requests given most
    recent first. *)
Definition page_param (r : request) : option jvalue := lookup "page" (params r).

Definition pages_from (page : Z) (n : nat) : list (option jvalue) :=
  map (fun i => Some (JInt (page + Z.of_nat i))) (seq 0 n).

(** [text] occurs in [whole]. *)
Definition contains (whole text : string) : Prop :=
  exists before after, whole = before ++ text ++ after.

(** The requests of [n] consecutive pages from [page] on, oldest first. *)
Definition requests_for (f : listing) (access_token : string)
    (page_size page : Z) (n : nat) : list request :=
  map (fun i => page_request f access_token page_size (page + Z.of_nat i)) (seq 0 n).

(** ** The integer fields of [schemas.py] *)

Module Schemas.

(** The message templates of the [strings] module, which is not part of
    the sources at hand: each is taken as the function from a field name
    to the text [template % name]. *)
Record strings : Type := {
  must_be_positive_integer : string -> string;
  missing_required_field : string -> string;
  field_may_not_be_null : string -> string
}.

(** A validator, by the messages of the [ValidationError] it raises for
    a value; it passes when there are none. *)
Definition validator := Z -> list string.

(** [validate.Range(min=..., min_inclusive=..., error=...)] with no
    upper bound. *)
Definition Range (min : option Z) (min_inclusive : bool) (error : string) : validator :=
  fun value =>
    match min with
    | None => []
    | Some m =>
        if (if min_inclusive then value <? m else value <=? m) then [error] else []
    end.

(** A [fields.Integer] as the factories configure it.  Further keyword
    arguments are handed on to the constructor untouched and are left
    out. *)
Record Integer : Type := {
  required : bool;
  strict : bool;
  allow_none : bool;
  error_messages : list (string * string);
  validate : list validator
}.

Definition get_int_field (tpl : strings) (name : string) (strict required : bool)
    (extra_validators : option (list validator)) (allow_none : bool) : Integer :=
  let extra_validators :=
    match extra_validators with
    | None => []
    | Some l => l
    end in
  {| required := required; strict := strict; allow_none := allow_none;
     error_messages := [("invalid", must_be_positive_integer tpl name);
                        ("required", missing_required_field tpl name);
                        ("null", field_may_not_be_null tpl name)];
     validate := extra_validators |}.

Definition get_positive_int_field (tpl : strings) (name : string) (strict required : bool)
    (extra_validators : option (list validator)) (allow_none : bool) : Integer :=
  let extra_validators :=
    match extra_validators with
    | None => []
    | Some l => l
    end in
  {| required := required; strict := strict; allow_none := allow_none;
     error_messages := [("invalid", must_be_positive_integer tpl name);
                        ("required", missing_required_field tpl name);
                        ("null", field_may_not_be_null tpl name)];
     validate := Range (Some 1) true (must_be_positive_integer tpl name)
                 :: extra_validators |}.

(** *** Loading a value through the field, after marshmallow *)

Fixpoint message_for (key : string) (messages : list (string * string)) : option string :=
  match messages with
  | [] => None
  | (k, m) :: rest => if String.eqb key k then Some m else message_for key rest
  end.

(** The messages of the field classes, overridden by the ones given. *)
Definition default_error_messages : list (string * string) :=
  [("required", "Missing data for required field.");
   ("null", "Field may not be null.");
   ("validator_failed", "Invalid value.");
   ("invalid", "Not a valid integer.");
   ("too_large", "Number too large.")].

Definition make_error (fld : Integer) (key : string) : string :=
  match message_for key (error_messages fld ++ default_error_messages)%list with
  | Some m => m
  | None => ""
  end.

(** [int(v)] for a value that is not already an [int]. *)
Inductive conversion : Type :=
| Converted (n : Z)
| NotConvertible
| Overflow.

(** [isinstance(v, numbers.Integral)]. *)
Definition is_integral (v : jvalue) : bool :=
  match v with
  | JInt _ | JBool _ => true
  | _ => false
  end.

(** What loading yields when no error is raised. *)
Inductive loaded : Type :=
| Value (n : Z)
| NoneValue
| Missing.

Section Load.

(** Python's [int] on the values that are neither [int] nor [bool]. *)
Variable int_ : jvalue -> conversion.

Definition validated (fld : Integer) (value : jvalue) : string + Z :=
  if strict fld && negb (is_integral value) then inl (make_error fld "invalid")
  else
    match value with
    | JBool _ => inl (make_error fld "invalid")
    | JInt n => inr n
    | _ =>
        match int_ value with
        | Converted n => inr n
        | NotConvertible => inl (make_error fld "invalid")
        | Overflow => inl (make_error fld "too_large")
        end
    end.

(** [Field.deserialize]; the input [None] is marshmallow's [missing]. *)
Definition deserialize (fld : Integer) (value : option jvalue) : list string + loaded :=
  match value with
  | None => if required fld then inl [make_error fld "required"] else inr Missing
  | Some JNull => if allow_none fld then inr NoneValue else inl [make_error fld "null"]
  | Some v =>
      match validated fld v with
      | inl m => inl [m]
      | inr n =>
          match List.concat (map (fun check => check n) (validate fld)) with
          | [] => inr (Value n)
          | errors => inl errors
          end
      end
  end.

End Load.

End Schemas.

(** The first [k] pages from [page] on, asked for from state [st], each
    come back as a page of exactly [page_size] mappings. *)
Definition full_pages (server : transport) (f : listing) (access_token : string)
    (page_size page : Z) (st : state) (k : nat) : Prop :=
  forall i, (i < k)%nat ->
    exists mapped,
      page_result_of f page_size
        (server (rev (requests_for f access_token page_size page i) ++ sent st)%list
                (page_request f access_token page_size (page + Z.of_nat i)))
      = FullPage mapped.

(** The mapping [d] was built from an item of a 200 response. *)
Definition listed_from (server : transport) (f : listing) (d : pydict) : Prop :=
  exists h r resp body items x v,
    server h r = inr resp /\ status_code resp = 200 /\ json resp = inr body /\
    iterate body = inr items /\ In x items /\
    subscript x (item_key f) = inr v /\ d = [("id", v); ("name", v)].

(** ** Concrete exchanges *)

Module Scenario.

Definition start : state := {| sent := []; log := [] |}.

Definition ok (items : list jvalue) : exn + response :=
  inr {| status_code := 200; json := inr (JArr items) |}.

Definition repo (id : Z) (name : string) : jvalue :=
  JObj [("id", JInt id); ("name", JStr name); ("private", JBool false)].

(** Two pages of two repositories, then a page of one. *)
Definition three_pages : transport :=
  fun h _ =>
    match h with
    | [] => ok [repo 11 "alpha"; repo 12 "beta"]
    | [_] => ok [repo 13 "gamma"; repo 14 "delta"]
    | _ => ok [repo 15 "epsilon"]
    end.

(** The host refuses the token. *)
Definition bad_credentials : transport :=
  fun _ _ =>
    inr {| status_code := 401;
           json := inr (JObj [("message", JStr "Bad credentials");
                              ("documentation_url", JStr "https://docs.github.com/rest")]) |}.

Definition timing_out : transport :=
  fun _ _ => inl (Timeout "Read timed out. (read timeout=10)").

(** One full page, then the connection times out. *)
Definition late_timeout : transport :=
  fun h _ =>
    match h with
    | [] => ok [repo 11 "alpha"; repo 12 "beta"]
    | _ => inl (Timeout "Read timed out. (read timeout=10)")
    end.


Definition templates : Schemas.strings :=
  {| Schemas.must_be_positive_integer := fun name => "'" ++ name ++ "' must be a positive integer.";
     Schemas.missing_required_field := fun name => "Missing required field '" ++ name ++ "'.";
     Schemas.field_may_not_be_null := fun name => "'" ++ name ++ "' may not be null." |}.

Definition no_conversion : jvalue -> Schemas.conversion :=
  fun _ => Schemas.NotConvertible.

End Scenario.

(** ** Further concrete exchanges *)

Module Cases.

(** A 403 whose body has no [message]. *)
Definition forbidden : transport :=
  fun _ _ =>
    inr {| status_code := 403; json := inr (JObj [("error", JStr "forbidden")]) |}.

(** A 502 whose body is not JSON, the decoder raising an exception of
    the [RequestException] family. *)
Definition bad_gateway : transport :=
  fun _ _ =>
    inr {| status_code := 502;
           json := inl (RequestException "Expecting value: line 1 column 1 (char 0)") |}.

(** A 200 whose body is an object wrapping the items. *)
Definition search_answer : transport :=
  fun _ _ =>
    inr {| status_code := 200;
           json := inr (JObj [("total_count", JInt 0); ("items", JArr [])]) |}.

End Cases.

(** ** The other field factories of [schemas.py] *)

Module Fields.

Import Schemas.

(** Further message templates of the absent [strings] module, each as
    the function from a field name to [template % name]. *)
Record more_strings : Type := {
  must_be_integer : string -> string;
  must_be_non_negative_integer : string -> string;
  must_be_string : string -> string;
  must_be_list : string -> string;
  list_must_be_non_empty : string -> string
}.

(** [validate.Range(min_inclusive=0, error=...)]: the keyword given is
    the flag that tells whether the bound is inclusive, here the falsy
    [0]; no [min] is given. *)
Definition get_non_negative_int_field (tpl : strings) (ext : more_strings)
    (name : string) (strict required allow_none : bool)
    (extra_validators : option (list validator)) : Integer :=
  let extra_validators :=
    match extra_validators with
    | None => []
    | Some l => l
    end in
  {| required := required; strict := strict; allow_none := allow_none;
     error_messages := [("invalid", must_be_integer ext name);
                        ("required", missing_required_field tpl name);
                        ("null", field_may_not_be_null tpl name)];
     validate := Range None false (must_be_non_negative_integer ext name)
                 :: extra_validators |}.

(** What loading a field yields when no error is raised: a value,
    [None], or nothing for an absent key. *)
Inductive load (A : Type) : Type :=
| Loaded (a : A)
| LoadedNone
| NotLoaded.
Arguments Loaded {A} a.
Arguments LoadedNone {A}.
Arguments NotLoaded {A}.

(** The message for [key]: the one given to the constructor, or else the
    default of the field class. *)
Definition message_of (given defaults : list (string * string)) (key : string) : string :=
  match message_for key (given ++ defaults)%list with
  | Some m => m
  | None => ""
  end.

Definition field_defaults : list (string * string) :=
  [("required", "Missing data for required field.");
   ("null", "Field may not be null.");
   ("validator_failed", "Invalid value.")].

(** *** [fields.Raw] *)

Record Raw : Type := {
  raw_required : bool;
  raw_allow_none : bool;
  raw_error_messages : list (string * string)
}.

Definition get_raw_field (tpl : strings) (name : string) (required allow_none : bool) : Raw :=
  {| raw_required := required; raw_allow_none := allow_none;
     raw_error_messages := [("required", missing_required_field tpl name);
                            ("null", field_may_not_be_null tpl name)] |}.

Definition raw_deserialize (fld : Raw) (value : option jvalue) : list string + load jvalue :=
  match value with
  | None =>
      if raw_required fld
      then inl [message_of (raw_error_messages fld) field_defaults "required"]
      else inr NotLoaded
  | Some JNull =>
      if raw_allow_none fld then inr LoadedNone
      else inl [message_of (raw_error_messages fld) field_defaults "null"]
  | Some v => inr (Loaded v)
  end.

(** *** [fields.String] *)

(** A validator of strings, by the messages it raises. *)
Definition str_validator := string -> list string.

(** The keyword arguments [strict] and [allow_empty] are not parameters
    of [fields.String]; the constructor keeps them as metadata. *)
Record Str : Type := {
  str_required : bool;
  str_allow_none : bool;
  str_error_messages : list (string * string);
  str_validate : list str_validator;
  str_metadata : list (string * bool)
}.

(** The [extra_validators] argument as the code tests it: [None], a
    [list], or some other object such as a tuple. *)
Inductive validators_arg : Type :=
| NoValidators
| AsList (l : list str_validator)
| NotAList (l : list str_validator).

(** [non_empty_string] stands for [validators.non_empty_string] of
    [src.classes], which is not among the sources. *)
Definition get_string_field (tpl : strings) (ext : more_strings)
    (non_empty_string : string -> str_validator) (name : string)
    (strict required : bool) (extra_validators : validators_arg)
    (allow_empty allow_none : bool) : Str :=
  let validators_ := [non_empty_string name] in
  let validators_ := if allow_empty then [] else validators_ in
  let validators_ :=
    match extra_validators with
    | AsList l => (validators_ ++ l)%list
    | _ => validators_
    end in
  {| str_required := required;
     str_allow_none := allow_none;
     str_error_messages := [("required", missing_required_field tpl name);
                            ("invalid", must_be_string ext name);
                            ("null", field_may_not_be_null tpl name)];
     str_validate := validators_;
     str_metadata := [("strict", strict); ("allow_empty", true)] |}.

Definition str_defaults : list (string * string) :=
  (field_defaults ++ [("invalid", "Not a valid string.");
                      ("invalid_utf8", "Not a valid utf-8 string.")])%list.

Definition str_deserialize (fld : Str) (value : option jvalue) : list string + load string :=
  match value with
  | None =>
      if str_required fld
      then inl [message_of (str_error_messages fld) str_defaults "required"]
      else inr NotLoaded
  | Some JNull =>
      if str_allow_none fld then inr LoadedNone
      else inl [message_of (str_error_messages fld) str_defaults "null"]
  | Some (JStr s) =>
      match List.concat (map (fun check => check s) (str_validate fld)) with
      | [] => inr (Loaded s)
      | errors => inl errors
      end
  | Some _ => inl [message_of (str_error_messages fld) str_defaults "invalid"]
  end.

(** *** [fields.List] *)

(** The errors of loading a list: messages of the field itself, or the
    errors of the items by index. *)
Inductive list_errors (E : Type) : Type :=
| OfField (messages : list string)
| OfItems (by_index : list (nat * E)).
Arguments OfField {E} messages.
Arguments OfItems {E} by_index.

(** A list field over an item field, the latter by its
    [deserialize]. *)
Record ListOf (E A : Type) : Type := {
  item : option jvalue -> E + A;
  list_required : bool;
  list_allow_none : bool;
  list_error_messages : list (string * string);
  list_validate : list (list A -> list string)
}.
Arguments item {E A} _ _.
Arguments list_required {E A} _.
Arguments list_allow_none {E A} _.
Arguments list_error_messages {E A} _.
Arguments list_validate {E A} _.

(** [validate.Length(min=..., error=...)]. *)
Definition Length {A} (min : option Z) (error : string) : list A -> list string :=
  fun value =>
    match min with
    | Some m => if len value <? m then [error] else []
    | None => []
    end.

(** The second argument of [get_list_field]: a schema, wrapped in
    [fields.Nested] by the factory, or a field; either one by the
    [deserialize] of the resulting item field. *)
Inductive schema_or_field (E A : Type) : Type :=
| ASchema (nested : option jvalue -> E + A)
| AField (field : option jvalue -> E + A).
Arguments ASchema {E A} nested.
Arguments AField {E A} field.

Definition get_list_field {E A} (tpl : strings) (ext : more_strings) (name : string)
    (schema_or_field : schema_or_field E A) (required allow_empty allow_none : bool)
    : ListOf E A :=
  let validators_ :=
    if negb allow_empty then [Length (Some 1) (list_must_be_non_empty ext name)] else [] in
  {| item := match schema_or_field with
             | ASchema nested => nested
             | AField field => field
             end;
     list_allow_none := allow_none;
     list_error_messages := [("type", must_be_list ext name);
                             ("invalid", must_be_list ext name);
                             ("required", missing_required_field tpl name);
                             ("null", field_may_not_be_null tpl name)];
     list_required := required;
     list_validate := validators_ |}.

Definition list_defaults : list (string * string) :=
  (field_defaults ++ [("invalid", "Not a valid list.")])%list.

(** The loop of [List._deserialize] from index [idx] on: the errors of
    the items that fail, by index, and the values of the others. *)
Fixpoint load_items {E A} (inner : option jvalue -> E + A) (idx : nat)
    (items : list jvalue) : list (nat * E) * list A :=
  match items with
  | [] => ([], [])
  | x :: rest =>
      let (errors, result) := load_items inner (S idx) rest in
      match inner (Some x) with
      | inl e => ((idx, e) :: errors, result)
      | inr a => (errors, a :: result)
      end
  end.

Definition list_deserialize {E A} (fld : ListOf E A) (value : option jvalue)
    : list_errors E + load (list A) :=
  match value with
  | None =>
      if list_required fld
      then inl (OfField [message_of (list_error_messages fld) list_defaults "required"])
      else inr NotLoaded
  | Some JNull =>
      if list_allow_none fld then inr LoadedNone
      else inl (OfField [message_of (list_error_messages fld) list_defaults "null"])
  | Some (JArr items) =>
      match load_items (item fld) 0 items with
      | ([], result) =>
          match List.concat (map (fun check => check result) (list_validate fld)) with
          | [] => inr (Loaded result)
          | errors => inl (OfField errors)
          end
      | (errors, _) => inl (OfItems errors)
      end
  | Some _ => inl (OfField [message_of (list_error_messages fld) list_defaults "invalid"])
  end.

(** *** Concrete fields *)

Definition texts : more_strings :=
  {| must_be_integer := fun name => "'" ++ name ++ "' must be an integer.";
     must_be_non_negative_integer :=
       fun name => "'" ++ name ++ "' must be a non-negative integer.";
     must_be_string := fun name => "'" ++ name ++ "' must be a string.";
     must_be_list := fun name => "'" ++ name ++ "' must be a list.";
     list_must_be_non_empty := fun name => "'" ++ name ++ "' must not be empty." |}.

Definition non_empty (name : string) : str_validator :=
  fun s => if String.eqb s "" then ["'" ++ name ++ "' must not be empty."] else [].

(** [workspaceId] of [WorkspaceSchema] and of [DeviceGroupSchema]. *)
Definition WorkspaceSchema_workspaceId : Integer :=
  get_non_negative_int_field Scenario.templates texts "workspaceId" false true false None.

(** [workspaceId] of [ZohoWorkspaceSchema]. *)
Definition ZohoWorkspaceSchema_workspaceId : Str :=
  get_string_field Scenario.templates texts non_empty "workspaceId" false true
    NoValidators false false.

(** [workspaceId] of [GenericWorkspaceSchema]. *)
Definition GenericWorkspaceSchema_workspaceId : Raw :=
  get_raw_field Scenario.templates "workspaceId" true false.

(** A list of workspace identifiers. *)
Definition workspace_ids : ListOf (list string) loaded :=
  get_list_field Scenario.templates texts "workspaceIds"
    (AField (deserialize Scenario.no_conversion WorkspaceSchema_workspaceId))
    true false false.

End Fields.

(** * Properties *)

(** ** One unfolding of a listing function *)

Lemma for_each_map_items (key : string) (items : list jvalue) (st : state) :
  for_each items (fun x =>
      id <- lift (subscript x key) ;;
      name <- lift (subscript x key) ;;
      ret [("id", id); ("name", name)]) st
  = lift (map_items key items) st.
Proof.
  revert st. induction items as [|x rest IH]; intros st; simpl.
  - reflexivity.
  - unfold bind at 1. unfold bind at 1.
    destruct (subscript x key) as [e|v]; simpl; [reflexivity|].
    unfold bind at 1. rewrite IH.
    destruct (map_items key rest) as [e|l]; reflexivity.
Qed.

Lemma for_in_map_items (key : string) (v : jvalue) (st : state) :
  for_in v (fun x =>
      id <- lift (subscript x key) ;;
      name <- lift (subscript x key) ;;
      ret [("id", id); ("name", name)]) st
  = match iterate v with
    | inl e => (Raise e, st)
    | inr items => lift (map_items key items) st
    end.
Proof.
  unfold for_in, bind. destruct (iterate v) as [e|items]; simpl; [reflexivity|].
  apply for_each_map_items.
Qed.

Lemma call_step (server : transport) (f : listing) (fuel : nat)
    (access_token : string) (page_size page : Z) (st : state) :
  call server f (S fuel) access_token page_size page st
  = unfolded f page_size (server (sent st) (page_request f access_token page_size page))
      (call server f fuel access_token page_size (page + 1))
      (with_request (page_request f access_token page_size page) st).
Proof.
  destruct f; simpl; unfold try_except, unfolded, page_result_of;
    unfold bind at 1; unfold requests_get, page_request; simpl;
    (destruct (server _ _) as [e|resp]; simpl; [destruct e; reflexivity|]);
    unfold bind at 1;
    (destruct (json resp) as [e|body]; simpl; [destruct e; reflexivity|]);
    unfold bind at 1;
    (destruct (negb (status_code resp =? 200)); simpl;
      [ unfold bind at 1; destruct (subscript body "message") as [e|m]; simpl;
        [destruct e; reflexivity | reflexivity]
      | ]);
    unfold bind at 1; rewrite for_in_map_items;
    (destruct (iterate body) as [e|items]; simpl; [destruct e; reflexivity|]);
    (destruct (map_items _ items) as [e|mapped]; simpl; [destruct e; reflexivity|]);
    (destruct (len mapped =? page_size); simpl; [|reflexivity]);
    unfold bind at 1;
    destruct (list_organizations _ _ _ _ _ _) as [[next|e|] st2] || destruct (list_user_repos _ _ _ _ _ _) as [[next|e|] st2] || destruct (list_org_repos _ _ _ _ _ _ _) as [[next|e|] st2]; simpl; try reflexivity; destruct e; reflexivity.
Qed.


Section Runs.

Variable server : transport.
Variable f : listing.
Variables (access_token : string) (page_size : Z).

Local Abbreviation run := (call server f) (only parsing).
Local Abbreviation req := (page_request f access_token page_size) (only parsing).

Lemma call_zero (page : Z) (st : state) :
  call server f 0 access_token page_size page st = (OutOfFuel, st).
Proof. destruct f; reflexivity. Qed.

Lemma str_reraised (e : exn) :
  str (reraised f e) = if is_transport e then fixed_message f else str e.
Proof. unfold reraised. destruct (is_transport e); reflexivity. Qed.

Lemma reraised_plain (e : exn) : is_plain_exception (reraised f e) = true.
Proof. unfold reraised. destruct (is_transport e); reflexivity. Qed.

Lemma reraised_of_plain (e : exn) :
  is_plain_exception e = true -> reraised f e = Exception_from e.
Proof. destruct e; simpl; intros H; try discriminate; reflexivity. Qed.

Lemma requests_for_succ (page : Z) (n : nat) :
  requests_for f access_token page_size page (S n)
  = req page :: requests_for f access_token page_size (page + 1) n.
Proof.
  unfold requests_for. cbn [seq map]. rewrite Z.add_0_r. f_equal.
  rewrite <- seq_shift, map_map. apply map_ext. intros i.
  f_equal. lia.
Qed.



(** The requests of a run: one per page, consecutive from [page]. *)
Lemma run_trace (fuel : nat) : forall page st,
  exists n, (n <= fuel)%nat /\
    sent (snd (run fuel access_token page_size page st))
    = (rev (requests_for f access_token page_size page n) ++ sent st)%list /\
    (fst (run fuel access_token page_size page st) = OutOfFuel -> n = fuel) /\
    (fst (run fuel access_token page_size page st) <> OutOfFuel -> (1 <= n)%nat).
Proof.
  induction fuel as [|fuel IH]; intros page st; cbn beta.
  - rewrite call_zero. exists 0%nat. simpl. repeat split; auto. congruence.
  - rewrite call_step. unfold unfolded.
    destruct (page_result_of f page_size (server (sent st) _)) as [e0|m|m] eqn:Hp.
    + exists 1%nat. simpl. rewrite Z.add_0_r. repeat split; try lia. discriminate.
    + exists 1%nat. simpl. rewrite Z.add_0_r. repeat split; try lia. discriminate.
    + destruct (IH (page + 1) (with_request (page_request f access_token page_size page) st))
        as (n & Hn & Hs & Hout & Hfin).
      exists (S n). rewrite requests_for_succ. cbn [rev]. rewrite <- app_assoc. cbn [app].
      destruct (call server f fuel access_token page_size (page + 1) _) as [[l|e|] st2];
        simpl in *; (split; [lia|]); (split; [exact Hs|]);
        split; intros; try discriminate; try lia.
      rewrite Hout; auto.
Qed.


Lemma requests_for_snoc_state (page : Z) (i : nat) (st : state) :
  (rev (requests_for f access_token page_size page (S i)) ++ sent st)%list
  = (rev (requests_for f access_token page_size (page + 1) i)
       ++ sent (with_request (req page) st))%list.
Proof.
  rewrite requests_for_succ. cbn [rev]. rewrite <- app_assoc. reflexivity.
Qed.

Lemma full_pages_head (k : nat) (page : Z) (st : state) :
  full_pages server f access_token page_size page st (S k) ->
  (exists m, page_result_of f page_size (server (sent st) (req page)) = FullPage m) /\
  full_pages server f access_token page_size (page + 1) (with_request (req page) st) k.
Proof.
  intros H. split.
  - destruct (H 0%nat ltac:(lia)) as [m Hm]. exists m.
    simpl in Hm. rewrite Z.add_0_r in Hm. exact Hm.
  - intros i Hi. destruct (H (S i) ltac:(lia)) as [m Hm]. exists m.
    rewrite requests_for_snoc_state in Hm.
    replace (page + 1 + Z.of_nat i) with (page + Z.of_nat (S i)) by lia. exact Hm.
Qed.

(** A failing page after [k] full ones: the call raises a plain
    exception whose text is read off the failure. *)
Lemma failure_after_full_pages (k : nat) : forall page st e0,
  full_pages server f access_token page_size page st k ->
  page_result_of f page_size
    (server (rev (requests_for f access_token page_size page k) ++ sent st)%list
            (req (page + Z.of_nat k))) = Failed e0 ->
  forall fuel, exists e st',
    run (S (k + fuel)) access_token page_size page st = (Raise e, st') /\
    is_plain_exception e = true /\
    str e = (if is_transport e0 then fixed_message f else str e0) /\
    sent st' = (rev (requests_for f access_token page_size page (S k)) ++ sent st)%list.
Proof.
  induction k as [|k IH]; intros page st e0 Hfull Hfail fuel; cbn beta in *.
  - simpl in Hfail. rewrite Z.add_0_r in Hfail.
    rewrite call_step. unfold unfolded. rewrite Hfail.
    eexists _, _. split; [reflexivity|].
    split; [apply reraised_plain|]. split; [apply str_reraised|].
    simpl. rewrite Z.add_0_r. reflexivity.
  - apply full_pages_head in Hfull. destruct Hfull as [[m Hm] Hrest].
    rewrite requests_for_snoc_state in Hfail.
    replace (page + Z.of_nat (S k)) with (page + 1 + Z.of_nat k) in Hfail by lia.
    destruct (IH _ _ _ Hrest Hfail fuel) as (e & st' & Hrun & Hplain & Hstr & Hsent).
    rewrite call_step. unfold unfolded. rewrite Hm.
    change (S k + fuel)%nat with (S (k + fuel)). rewrite Hrun.
    eexists _, _. split; [reflexivity|].
    split; [apply reraised_plain|].
    rewrite (reraised_of_plain _ Hplain). split; [exact Hstr|].
    unfold with_log; cbn [sent]. rewrite Hsent. symmetry. apply requests_for_snoc_state.
Qed.

End Runs.

Lemma length_map_items (key : string) (items : list jvalue) : forall mapped,
  map_items key items = inr mapped -> List.length mapped = List.length items.
Proof.
  induction items as [|x rest IH]; simpl; intros mapped H.
  - injection H as <-. reflexivity.
  - destruct (subscript x key) as [e|v]; [discriminate|].
    destruct (map_items key rest) as [e|l]; [discriminate|].
    injection H as <-. simpl. f_equal. apply IH. reflexivity.
Qed.

Lemma len_map_items (key : string) (items : list jvalue) (mapped : list pydict) :
  map_items key items = inr mapped -> len mapped = len items.
Proof. intros H. unfold len. f_equal. eapply length_map_items, H. Qed.

Lemma page_result_of_array (f : listing) (page_size : Z) (resp : response)
    (items : list jvalue) :
  status_code resp = 200 -> json resp = inr (JArr items) ->
  page_result_of f page_size (inr resp)
  = match map_items (item_key f) items with
    | inl e => Failed e
    | inr mapped => if len mapped =? page_size then FullPage mapped else LastPage mapped
    end.
Proof.
  intros Hs Hj. unfold page_result_of. rewrite Hj, Hs. reflexivity.
Qed.

Lemma last_page_not_full (f : listing) (page_size : Z) (answer : exn + response)
    (m : list pydict) :
  page_result_of f page_size answer = LastPage m -> len m <> page_size.
Proof.
  unfold page_result_of.
  destruct answer as [e|resp]; [discriminate|].
  destruct (json resp) as [e|body]; [discriminate|].
  destruct (negb (status_code resp =? 200)).
  - destruct (subscript body "message"); discriminate.
  - destruct (iterate body) as [e|items]; [discriminate|].
    destruct (map_items (item_key f) items) as [e|mapped]; [discriminate|].
    destruct (len mapped =? page_size) eqn:E; [discriminate|].
    intros H. injection H as <-. apply Z.eqb_neq. exact E.
Qed.

Lemma map_items_listed (key : string) (items : list jvalue) : forall mapped,
  map_items key items = inr mapped ->
  Forall (fun d => exists x v,
            In x items /\ subscript x key = inr v /\ d = [("id", v); ("name", v)])
         mapped.
Proof.
  induction items as [|x rest IH]; simpl; intros mapped H.
  - injection H as <-. constructor.
  - destruct (subscript x key) as [e|v] eqn:Hx; [discriminate|].
    destruct (map_items key rest) as [e|l]; [discriminate|].
    injection H as <-. constructor.
    + exists x, v. auto.
    + eapply Forall_impl; [|apply (IH l eq_refl)].
      intros d (y & w & Hin & Hy & Hd). exists y, w. auto.
Qed.

Lemma page_items_listed (server : transport) (f : listing) (page_size : Z)
    (h : list request) (r : request) (m : list pydict) :
  page_result_of f page_size (server h r) = LastPage m \/
  page_result_of f page_size (server h r) = FullPage m ->
  Forall (listed_from server f) m.
Proof.
  unfold page_result_of.
  destruct (server h r) as [e|resp] eqn:Hsrv; [intros [H|H]; discriminate|].
  destruct (json resp) as [e|body] eqn:Hj; [intros [H|H]; discriminate|].
  destruct (negb (status_code resp =? 200)) eqn:Hst.
  - destruct (subscript body "message"); intros [H|H]; discriminate.
  - destruct (iterate body) as [e|items] eqn:Hit; [intros [H|H]; discriminate|].
    destruct (map_items (item_key f) items) as [e|mapped] eqn:Hm;
      [intros [H|H]; discriminate|].
    apply negb_false_iff, Z.eqb_eq in Hst.
    intros H.
    assert (m = mapped) as ->
      by (destruct (len mapped =? page_size); destruct H as [H|H]; congruence).
    eapply Forall_impl; [|apply (map_items_listed _ _ _ Hm)].
    intros d (x & v & Hin & Hx & Hd). exists h, r, resp, body, items, x, v. auto 10.
Qed.

Lemma full_pages_zero (server : transport) (f : listing) (access_token : string)
    (page_size page : Z) (st : state) :
  full_pages server f access_token page_size page st 0.
Proof. intros i Hi. inversion Hi. Qed.

Lemma append_empty (s : string) : s ++ "" = s.
Proof. induction s as [|c s IH]; simpl; [reflexivity | now rewrite IH]. Qed.

Lemma contains_suffix (prefix text : string) : contains (prefix ++ text) text.
Proof. exists prefix, "". rewrite append_empty. reflexivity. Qed.

(** ** Error handling *)

(** C1, as the specification words it, fails: when the host answers 401
    with the message [Bad credentials], [list_organizations] raises an
    exception whose text is the API error, not the fixed message of the
    function. *)
Lemma api_error_text_is_not_the_fixed_message :
  exists e st',
    list_organizations Scenario.bad_credentials 1 "t0k3n" 50 1 Scenario.start
      = (Raise e, st') /\
    str e = "Error listing organizations: Bad credentials" /\
    str e <> "Error retrieving Github organizations.".
Proof.
  eexists _, _. split; [reflexivity|]. split; [reflexivity|].
  simpl. discriminate.
Qed.

(** C1 (amended): for each of the three listing functions, a failure at
    any page of the listing (after [k] full pages) makes the call raise
    a plain [Exception]; its text is the fixed message of the function
    when the failure is a [Timeout], [TooManyRedirects] or other
    [RequestException], and the text of the original exception
    otherwise. *)
Theorem failure_raises_plain_exception (server : transport) (f : listing)
    (access_token : string) (page_size page : Z) (st : state) (k : nat) (e0 : exn) :
  full_pages server f access_token page_size page st k ->
  page_result_of f page_size
    (server (rev (requests_for f access_token page_size page k) ++ sent st)%list
            (page_request f access_token page_size (page + Z.of_nat k))) = Failed e0 ->
  forall fuel, exists e st',
    call server f (S (k + fuel)) access_token page_size page st = (Raise e, st') /\
    is_plain_exception e = true /\
    str e = (if is_transport e0 then fixed_message f else str e0).
Proof.
  intros Hfull Hfail fuel.
  destruct (failure_after_full_pages server f access_token page_size k page st e0
              Hfull Hfail fuel) as (e & st' & Hrun & Hplain & Hstr & _).
  exists e, st'. auto.
Qed.

Lemma failure_raises_plain_exception_witness :
  exists e st',
    call Scenario.late_timeout UserRepos 2 "t0k3n" 2 1 Scenario.start = (Raise e, st') /\
    is_plain_exception e = true /\
    str e = "Error retrieving Github repositories for user.".
Proof.
  refine (failure_raises_plain_exception Scenario.late_timeout UserRepos "t0k3n" 2 1
            Scenario.start 1 (Timeout "Read timed out. (read timeout=10)") _ eq_refl 0).
  intros i Hi. destruct i as [|i].
  - eexists. reflexivity.
  - exfalso. inversion Hi as [|? H]. inversion H.
Defined.

(** C4: for each of the three listing functions, when a page (after [k]
    full pages) is answered with a status other than 200 and a JSON
    object whose [message] key holds [x], the call raises an error whose
    text is the API error prefix followed by [str(x)], hence contains
    it; for a string [X] that is [X] itself. *)
Theorem api_message_in_error_text (server : transport) (f : listing)
    (access_token : string) (page_size page : Z) (st : state) (k : nat)
    (resp : response) (fields : list (string * jvalue)) (x : jvalue) :
  full_pages server f access_token page_size page st k ->
  server (rev (requests_for f access_token page_size page k) ++ sent st)%list
         (page_request f access_token page_size (page + Z.of_nat k)) = inr resp ->
  status_code resp <> 200 ->
  json resp = inr (JObj fields) ->
  lookup "message" fields = Some x ->
  forall fuel, exists e st',
    call server f (S (k + fuel)) access_token page_size page st = (Raise e, st') /\
    str e = api_error_prefix f ++ PyText.str x /\
    contains (str e) (PyText.str x) /\
    (forall X, x = JStr X -> contains (str e) X).
Proof.
  intros Hfull Hsrv Hst Hj Hx fuel.
  assert (Hfail : page_result_of f page_size
            (server (rev (requests_for f access_token page_size page k) ++ sent st)%list
                    (page_request f access_token page_size (page + Z.of_nat k)))
          = Failed (Exception (api_error_prefix f ++ PyText.str x))).
  { rewrite Hsrv. unfold page_result_of. rewrite Hj.
    apply Z.eqb_neq in Hst. rewrite Hst. simpl. rewrite Hx. reflexivity. }
  destruct (failure_after_full_pages server f access_token page_size k page st _
              Hfull Hfail fuel) as (e & st' & Hrun & _ & Hstr & _).
  simpl in Hstr. exists e, st'. split; [exact Hrun|]. split; [exact Hstr|].
  rewrite Hstr. split; [apply contains_suffix|].
  intros X ->. apply contains_suffix.
Qed.

Lemma api_message_in_error_text_witness :
  exists e st',
    call Scenario.bad_credentials Organizations 1 "t0k3n" 50 1 Scenario.start
      = (Raise e, st') /\
    str e = "Error listing organizations: Bad credentials" /\
    contains (str e) "Bad credentials" /\
    (forall X, JStr "Bad credentials" = JStr X -> contains (str e) X).
Proof.
  refine (api_message_in_error_text Scenario.bad_credentials Organizations "t0k3n" 50 1
            Scenario.start 0 _ _ (JStr "Bad credentials") _ eq_refl _ eq_refl eq_refl 0).
  - intros i Hi. inversion Hi.
  - simpl. discriminate.
Defined.

(** C6: when the request of [list_user_repos] for a page (after [k]
    full pages) raises a timeout, the call raises an error whose text is
    exactly "Error retrieving Github repositories for user.", whatever
    the timeout says. *)
Theorem timeout_gives_fixed_text (server : transport) (access_token : string)
    (page_size page : Z) (st : state) (k : nat) (detail : string) :
  full_pages server UserRepos access_token page_size page st k ->
  server (rev (requests_for UserRepos access_token page_size page k) ++ sent st)%list
         (page_request UserRepos access_token page_size (page + Z.of_nat k))
    = inl (Timeout detail) ->
  forall fuel, exists e st',
    list_user_repos server (S (k + fuel)) access_token page_size page st = (Raise e, st') /\
    str e = "Error retrieving Github repositories for user.".
Proof.
  intros Hfull Hsrv fuel.
  destruct (failure_after_full_pages server UserRepos access_token page_size k page st
              (Timeout detail) Hfull) with (fuel := fuel)
    as (e & st' & Hrun & _ & Hstr & _).
  { rewrite Hsrv. reflexivity. }
  exists e, st'. split; [exact Hrun | exact Hstr].
Qed.

Lemma timeout_gives_fixed_text_witness :
  exists e st',
    list_user_repos Scenario.timing_out 1 "t0k3n" 50 1 Scenario.start = (Raise e, st') /\
    str e = "Error retrieving Github repositories for user.".
Proof.
  refine (timeout_gives_fixed_text Scenario.timing_out "t0k3n" 50 1 Scenario.start 0
            "Read timed out. (read timeout=10)" _ eq_refl 0).
  intros i Hi. inversion Hi.
Defined.

(** ** Pagination *)





(** C5: [list_user_repos] with [page_size = 2], answered with two
    200 pages of two repositories and then a 200 page of one, returns
    the five mappings [{"id": name, "name": name}] in the order of the
    requests. *)
Theorem three_pages_give_five_repos (server : transport) (access_token : string)
    (page : Z) (st : state) (i1 i2 i3 i4 i5 n1 n2 n3 n4 n5 : jvalue) :
  subscript i1 "name" = inr n1 -> subscript i2 "name" = inr n2 ->
  subscript i3 "name" = inr n3 -> subscript i4 "name" = inr n4 ->
  subscript i5 "name" = inr n5 ->
  let req := page_request UserRepos access_token 2 in
  server (sent st) (req page) = Scenario.ok [i1; i2] ->
  server (req page :: sent st) (req (page + 1)) = Scenario.ok [i3; i4] ->
  server (req (page + 1) :: req page :: sent st) (req (page + 1 + 1)) = Scenario.ok [i5] ->
  forall fuel,
    list_user_repos server (3 + fuel) access_token 2 page st
    = (Return [[("id", n1); ("name", n1)]; [("id", n2); ("name", n2)];
               [("id", n3); ("name", n3)]; [("id", n4); ("name", n4)];
               [("id", n5); ("name", n5)]],
       {| sent := req (page + 1 + 1) :: req (page + 1) :: req page :: sent st;
          log := log st |}).
Proof.
  intros H1 H2 H3 H4 H5 req Hp1 Hp2 Hp3 fuel.
  change (list_user_repos server (3 + fuel) access_token 2 page st)
    with (call server UserRepos (S (S (S fuel))) access_token 2 page st).
  rewrite call_step. fold req. unfold unfolded at 1. rewrite Hp1.
  unfold page_result_of at 1, Scenario.ok. cbn -[call Z.add]. rewrite H1, H2.
  cbn -[call Z.add].
  rewrite call_step. fold req. unfold unfolded at 1. cbn [sent with_request]. rewrite Hp2.
  unfold page_result_of at 1, Scenario.ok. cbn -[call Z.add]. rewrite H3, H4.
  cbn -[call Z.add].
  rewrite call_step. fold req. unfold unfolded at 1. cbn [sent with_request]. rewrite Hp3.
  unfold page_result_of at 1, Scenario.ok. cbn -[call Z.add]. rewrite H5.
  cbn -[call Z.add].
  reflexivity.
Qed.

Lemma three_pages_give_five_repos_witness :
  list_user_repos Scenario.three_pages 3 "t0k3n" 2 1 Scenario.start
  = (Return [[("id", JStr "alpha"); ("name", JStr "alpha")];
             [("id", JStr "beta"); ("name", JStr "beta")];
             [("id", JStr "gamma"); ("name", JStr "gamma")];
             [("id", JStr "delta"); ("name", JStr "delta")];
             [("id", JStr "epsilon"); ("name", JStr "epsilon")]],
     {| sent := [page_request UserRepos "t0k3n" 2 3; page_request UserRepos "t0k3n" 2 2;
                 page_request UserRepos "t0k3n" 2 1];
        log := [] |}).
Proof.
  exact (three_pages_give_five_repos Scenario.three_pages "t0k3n" 1 Scenario.start
           (Scenario.repo 11 "alpha") (Scenario.repo 12 "beta") (Scenario.repo 13 "gamma")
           (Scenario.repo 14 "delta") (Scenario.repo 15 "epsilon")
           (JStr "alpha") (JStr "beta") (JStr "gamma") (JStr "delta") (JStr "epsilon")
           eq_refl eq_refl eq_refl eq_refl eq_refl eq_refl eq_refl eq_refl 0).
Defined.

(** ** Requests *)

Lemma requests_for_timeout (f : listing) (access_token : string) (page_size page : Z)
    (n : nat) :
  Forall (fun r => timeout r = 10) (requests_for f access_token page_size page n).
Proof.
  unfold requests_for. apply Forall_map, Forall_forall. intros i _. reflexivity.
Qed.

Lemma requests_for_pages (f : listing) (access_token : string) (page_size page : Z)
    (n : nat) :
  map page_param (requests_for f access_token page_size page n) = pages_from page n.
Proof.
  unfold requests_for, pages_from. rewrite map_map. apply map_ext.
  intros i. destruct f; reflexivity.
Qed.

Lemma pages_from_NoDup (page : Z) (n : nat) : NoDup (pages_from page n).
Proof.
  unfold pages_from. apply NoDup_map_NoDup_ForallPairs; [|apply seq_NoDup].
  intros i j _ _ H. injection H as H. lia.
Qed.

(** C7: every request a listing function sends has [timeout = 10]; the
    requests of a call are for the pages [page], [page + 1], ... one
    after the other, each page once, so no page is asked for twice. *)
Theorem requests_have_timeout_and_no_retry (server : transport) (f : listing)
    (fuel : nat) (access_token : string) (page_size page : Z) (st : state) :
  exists n, (n <= fuel)%nat /\
    sent (snd (call server f fuel access_token page_size page st))
      = (rev (requests_for f access_token page_size page n) ++ sent st)%list /\
    Forall (fun r => timeout r = 10) (requests_for f access_token page_size page n) /\
    map page_param (requests_for f access_token page_size page n) = pages_from page n /\
    NoDup (pages_from page n) /\
    NoDup (requests_for f access_token page_size page n).
Proof.
  destruct (run_trace server f access_token page_size fuel page st)
    as (n & Hn & Hsent & _ & _).
  exists n. split; [exact Hn|]. split; [exact Hsent|].
  split; [apply requests_for_timeout|].
  split; [apply requests_for_pages|].
  split; [apply pages_from_NoDup|].
  apply (NoDup_map_inv page_param). rewrite requests_for_pages. apply pages_from_NoDup.
Qed.

(** ** Returned mappings *)

Lemma returned_listed (server : transport) (f : listing) (access_token : string)
    (page_size : Z) (fuel : nat) : forall page st l st',
  call server f fuel access_token page_size page st = (Return l, st') ->
  Forall (listed_from server f) l.
Proof.
  induction fuel as [|fuel IH]; intros page st l st'.
  - rewrite call_zero. discriminate.
  - rewrite call_step. unfold unfolded.
    destruct (page_result_of f page_size (server (sent st) _)) as [e0|m|m] eqn:Hp.
    + discriminate.
    + intros H. injection H as <- _. eapply page_items_listed. left. exact Hp.
    + destruct (call server f fuel access_token page_size (page + 1) _)
        as [[rest|e|] st2] eqn:Hrec; try discriminate.
      intros H. injection H as <- _. apply Forall_app. split.
      * eapply page_items_listed. right. exact Hp.
      * eapply IH. exact Hrec.
Qed.

(** C8: every element of a list returned by one of the three listing
    functions is a mapping with exactly the keys ["id"] and ["name"],
    in this order, holding the same value, which is the [login]
    (organizations) or [name] (repositories) of an item of a 200
    response. *)
Theorem returned_mappings_have_id_equal_name (server : transport) (f : listing)
    (fuel : nat) (access_token : string) (page_size page : Z) (st st' : state)
    (l : list pydict) :
  call server f fuel access_token page_size page st = (Return l, st') ->
  Forall (fun d =>
            listed_from server f d /\
            map fst d = ["id"; "name"] /\
            lookup "id" d = lookup "name" d /\
            exists v, d = [("id", v); ("name", v)])
         l.
Proof.
  intros H. apply returned_listed in H.
  eapply Forall_impl; [|exact H].
  intros d Hd. split; [exact Hd|].
  destruct Hd as (h & r & resp & body & items & x & v & _ & _ & _ & _ & _ & _ & ->).
  split; [reflexivity|]. split; [reflexivity|]. exists v. reflexivity.
Qed.

Lemma returned_mappings_have_id_equal_name_witness :
  Forall (fun d =>
            listed_from Scenario.three_pages UserRepos d /\
            map fst d = ["id"; "name"] /\
            lookup "id" d = lookup "name" d /\
            exists v, d = [("id", v); ("name", v)])
         [[("id", JStr "alpha"); ("name", JStr "alpha")];
          [("id", JStr "beta"); ("name", JStr "beta")];
          [("id", JStr "gamma"); ("name", JStr "gamma")];
          [("id", JStr "delta"); ("name", JStr "delta")];
          [("id", JStr "epsilon"); ("name", JStr "epsilon")]].
Proof.
  exact (returned_mappings_have_id_equal_name Scenario.three_pages UserRepos 3 "t0k3n" 2 1
           Scenario.start _ _ eq_refl).
Defined.

(** ** Termination *)




(** ** Integer fields *)

Import Schemas.

(** C10: [get_int_field] attaches the extra validators and nothing
    else, while its "invalid" message is the positive-integer template
    for the field name, the one [get_positive_int_field] uses for its
    range check; so without extra validators the field loads every
    integer, zero and the negative ones included, and reports a value
    that is not an integer with the positive-integer message. *)
Theorem int_field_accepts_every_integer (tpl : strings) (int_ : jvalue -> conversion)
    (name : string) (strict required allow_none : bool) :
  (forall extra,
     validate (get_int_field tpl name strict required (Some extra) allow_none) = extra) /\
  validate (get_int_field tpl name strict required None allow_none) = [] /\
  make_error (get_int_field tpl name strict required None allow_none) "invalid"
    = must_be_positive_integer tpl name /\
  (exists check,
     validate (get_positive_int_field tpl name strict required None allow_none) = [check] /\
     forall n, check n = if n <? 1 then [must_be_positive_integer tpl name] else []) /\
  (forall n : Z,
     deserialize int_ (get_int_field tpl name strict required None allow_none)
       (Some (JInt n)) = inr (Value n)) /\
  (forall b : bool,
     deserialize int_ (get_int_field tpl name strict required None allow_none)
       (Some (JBool b)) = inl [must_be_positive_integer tpl name]) /\
  (forall v : jvalue,
     strict = true -> is_integral v = false -> v <> JNull ->
     deserialize int_ (get_int_field tpl name strict required None allow_none) (Some v)
       = inl [must_be_positive_integer tpl name]).
Proof.
  split; [reflexivity|]. split; [reflexivity|]. split; [reflexivity|].
  split; [eexists; split; [reflexivity|]; intros n; reflexivity|].
  split; [|split].
  - intros n. unfold deserialize, validated. simpl.
    rewrite andb_false_r. reflexivity.
  - intros b. unfold deserialize, validated. simpl.
    rewrite andb_false_r. reflexivity.
  - intros v -> Hv Hnull. unfold deserialize, validated. simpl. rewrite Hv. simpl.
    destruct v; try reflexivity; try discriminate. congruence.
Qed.

Lemma int_field_accepts_every_integer_witness :
  deserialize Scenario.no_conversion
    (get_int_field Scenario.templates "workspaceId" true true None false)
    (Some (JInt (-7))) = inr (Value (-7)) /\
  deserialize Scenario.no_conversion
    (get_int_field Scenario.templates "workspaceId" true true None false)
    (Some (JStr "seven")) = inl ["'workspaceId' must be a positive integer."].
Proof.
  pose (H := int_field_accepts_every_integer Scenario.templates Scenario.no_conversion
               "workspaceId" true true false).
  split.
  - exact (proj1 (proj2 (proj2 (proj2 (proj2 H)))) (-7)).
  - refine (proj2 (proj2 (proj2 (proj2 (proj2 (proj2 H))))) (JStr "seven")
              eq_refl eq_refl _).
    discriminate.
Defined.

(** * Further properties of the listing functions *)

Lemma full_page_len (f : listing) (page_size : Z) (answer : exn + response)
    (m : list pydict) :
  page_result_of f page_size answer = FullPage m -> len m = page_size.
Proof.
  unfold page_result_of.
  destruct answer as [e|resp]; [discriminate|].
  destruct (json resp) as [e|body]; [discriminate|].
  destruct (negb (status_code resp =? 200)).
  - destruct (subscript body "message"); discriminate.
  - destruct (iterate body) as [e|items]; [discriminate|].
    destruct (map_items (item_key f) items) as [e|mapped]; [discriminate|].
    destruct (len mapped =? page_size) eqn:E; [|discriminate].
    intros H. injection H as <-. apply Z.eqb_eq. exact E.
Qed.

Lemma concat_pages_succ (pages : nat -> list pydict) (k : nat) :
  List.concat (map pages (seq 0 (S k)))
  = (pages 0%nat ++ List.concat (map (fun i => pages (S i)) (seq 0 k)))%list.
Proof.
  cbn [seq map List.concat]. f_equal. rewrite <- seq_shift, map_map. reflexivity.
Qed.

(** A listing of [k] full pages and a last page returns the mappings of
    all pages, in the order of the requests, after one request per page
    and without writing to the log. *)
Theorem listing_returns_all_pages (server : transport) (f : listing)
    (access_token : string) (page_size : Z) (k : nat) :
  forall (page : Z) (st : state) (pages : nat -> list pydict) (m : list pydict),
  (forall i, (i < k)%nat ->
     page_result_of f page_size
       (server (rev (requests_for f access_token page_size page i) ++ sent st)%list
               (page_request f access_token page_size (page + Z.of_nat i)))
     = FullPage (pages i)) ->
  page_result_of f page_size
    (server (rev (requests_for f access_token page_size page k) ++ sent st)%list
            (page_request f access_token page_size (page + Z.of_nat k)))
  = LastPage m ->
  forall fuel,
    call server f (S (k + fuel)) access_token page_size page st
    = (Return (List.concat (map pages (seq 0 k)) ++ m)%list,
       {| sent := (rev (requests_for f access_token page_size page (S k)) ++ sent st)%list;
          log := log st |}).
Proof.
  induction k as [|k IH]; intros page st pages m Hfull Hlast fuel.
  - simpl in Hlast. rewrite Z.add_0_r in Hlast.
    rewrite call_step. unfold unfolded. rewrite Hlast.
    cbn [seq map List.concat app]. unfold requests_for. cbn [seq map rev app].
    rewrite Z.add_0_r. reflexivity.
  - pose proof (Hfull 0%nat ltac:(lia)) as H0. simpl in H0. rewrite Z.add_0_r in H0.
    rewrite call_step. unfold unfolded. rewrite H0.
    change (S k + fuel)%nat with (S (k + fuel)).
    rewrite (IH (page + 1) (with_request (page_request f access_token page_size page) st)
               (fun i => pages (S i)) m).
    + rewrite concat_pages_succ, <- app_assoc.
      rewrite <- (requests_for_snoc_state f access_token page_size page (S k) st).
      reflexivity.
    + intros i Hi. specialize (Hfull (S i) ltac:(lia)).
      rewrite requests_for_snoc_state in Hfull.
      replace (page + 1 + Z.of_nat i) with (page + Z.of_nat (S i)) by lia. exact Hfull.
    + rewrite <- requests_for_snoc_state.
      replace (page + 1 + Z.of_nat k) with (page + Z.of_nat (S k)) by lia. exact Hlast.
Qed.

Lemma listing_returns_all_pages_witness :
  call Scenario.three_pages UserRepos 3 "t0k3n" 2 1 Scenario.start
  = (Return [[("id", JStr "alpha"); ("name", JStr "alpha")];
             [("id", JStr "beta"); ("name", JStr "beta")];
             [("id", JStr "gamma"); ("name", JStr "gamma")];
             [("id", JStr "delta"); ("name", JStr "delta")];
             [("id", JStr "epsilon"); ("name", JStr "epsilon")]],
     {| sent := [page_request UserRepos "t0k3n" 2 3; page_request UserRepos "t0k3n" 2 2;
                 page_request UserRepos "t0k3n" 2 1];
        log := [] |}).
Proof.
  refine (listing_returns_all_pages Scenario.three_pages UserRepos "t0k3n" 2 2 1
            Scenario.start
            (fun i => match i with
                      | O => [[("id", JStr "alpha"); ("name", JStr "alpha")];
                              [("id", JStr "beta"); ("name", JStr "beta")]]
                      | _ => [[("id", JStr "gamma"); ("name", JStr "gamma")];
                              [("id", JStr "delta"); ("name", JStr "delta")]]
                      end)
            [[("id", JStr "epsilon"); ("name", JStr "epsilon")]] _ eq_refl 0).
  intros i Hi. destruct i as [|[|i]]; [reflexivity | reflexivity | exfalso].
  inversion Hi as [|? H1]. inversion H1 as [|? H2]. inversion H2.
Defined.

(** The length of a returned list: every page before the last brought
    exactly [page_size] mappings, the last one a different number. *)
Theorem returned_length (server : transport) (f : listing) (access_token : string)
    (page_size : Z) (fuel : nat) :
  forall (page : Z) (st st' : state) (l : list pydict),
  call server f fuel access_token page_size page st = (Return l, st') ->
  exists (n : nat) (m : list pydict),
    sent st' = (rev (requests_for f access_token page_size page (S n)) ++ sent st)%list /\
    page_result_of f page_size
      (server (rev (requests_for f access_token page_size page n) ++ sent st)%list
              (page_request f access_token page_size (page + Z.of_nat n))) = LastPage m /\
    len l = Z.of_nat n * page_size + len m /\
    len m <> page_size.
Proof.
  induction fuel as [|fuel IH]; intros page st st' l.
  - rewrite call_zero. discriminate.
  - rewrite call_step. unfold unfolded.
    destruct (page_result_of f page_size (server (sent st) _)) as [e0|m|m] eqn:Hp.
    + discriminate.
    + intros H. injection H as <- <-. exists 0%nat, m.
      unfold requests_for. cbn [seq map rev app]. rewrite Z.add_0_r.
      split; [reflexivity|]. split; [exact Hp|]. split; [reflexivity|].
      eapply last_page_not_full, Hp.
    + destruct (call server f fuel access_token page_size (page + 1) _)
        as [[rest|e|] st2] eqn:Hrec; try discriminate.
      intros H. injection H as <- <-.
      destruct (IH _ _ _ _ Hrec) as (n & m' & Hs & Hr & Hl & Hne).
      exists (S n), m'.
      rewrite (requests_for_snoc_state f access_token page_size page (S n) st).
      rewrite (requests_for_snoc_state f access_token page_size page n st).
      replace (page + Z.of_nat (S n)) with (page + 1 + Z.of_nat n) by lia.
      split; [exact Hs|]. split; [exact Hr|]. split; [|exact Hne].
      apply full_page_len in Hp. unfold len in *. rewrite length_app. nia.
Qed.

Lemma returned_length_witness :
  exists (n : nat) (m : list pydict),
    [page_request UserRepos "t0k3n" 2 3; page_request UserRepos "t0k3n" 2 2;
     page_request UserRepos "t0k3n" 2 1]
    = (rev (requests_for UserRepos "t0k3n" 2 1 (S n)) ++ sent Scenario.start)%list /\
    page_result_of UserRepos 2
      (Scenario.three_pages
         (rev (requests_for UserRepos "t0k3n" 2 1 n) ++ sent Scenario.start)%list
         (page_request UserRepos "t0k3n" 2 (1 + Z.of_nat n))) = LastPage m /\
    5 = Z.of_nat n * 2 + len m /\
    len m <> 2.
Proof.
  exact (returned_length Scenario.three_pages UserRepos "t0k3n" 2 3 1 Scenario.start
           _ _ eq_refl).
Defined.

(** The test for another page is an equality: a 200 array whose number
    of items differs from [page_size], be it larger, ends the listing
    with one request. *)
Theorem other_sized_page_ends_listing (server : transport) (f : listing) (fuel : nat)
    (access_token : string) (page_size page : Z) (st : state)
    (resp : response) (items : list jvalue) (mapped : list pydict) :
  server (sent st) (page_request f access_token page_size page) = inr resp ->
  status_code resp = 200 ->
  json resp = inr (JArr items) ->
  map_items (item_key f) items = inr mapped ->
  len items <> page_size ->
  call server f (S fuel) access_token page_size page st
  = (Return mapped, with_request (page_request f access_token page_size page) st).
Proof.
  intros Hsrv Hst Hj Hm Hlen.
  rewrite call_step. unfold unfolded.
  rewrite Hsrv, (page_result_of_array f page_size resp items Hst Hj), Hm.
  rewrite (len_map_items _ _ _ Hm).
  apply Z.eqb_neq in Hlen. rewrite Hlen. reflexivity.
Qed.

Lemma other_sized_page_ends_listing_witness :
  call Scenario.three_pages UserRepos 1 "t0k3n" 1 1 Scenario.start
  = (Return [[("id", JStr "alpha"); ("name", JStr "alpha")];
             [("id", JStr "beta"); ("name", JStr "beta")]],
     with_request (page_request UserRepos "t0k3n" 1 1) Scenario.start).
Proof.
  refine (other_sized_page_ends_listing Scenario.three_pages UserRepos 0 "t0k3n" 1 1
            Scenario.start _ _ _ eq_refl eq_refl eq_refl eq_refl _).
  discriminate.
Defined.

(** A call that returns has written nothing with [logger.error]. *)
Theorem return_logs_nothing (server : transport) (f : listing) (access_token : string)
    (page_size : Z) (fuel : nat) :
  forall (page : Z) (st st' : state) (l : list pydict),
  call server f fuel access_token page_size page st = (Return l, st') ->
  log st' = log st.
Proof.
  induction fuel as [|fuel IH]; intros page st st' l.
  - rewrite call_zero. discriminate.
  - rewrite call_step. unfold unfolded.
    destruct (page_result_of f page_size (server (sent st) _)) as [e0|m|m].
    + discriminate.
    + intros H. injection H as _ <-. reflexivity.
    + destruct (call server f fuel access_token page_size (page + 1) _)
        as [[rest|e|] st2] eqn:Hrec; try discriminate.
      intros H. injection H as _ <-. apply (IH _ _ _ _ Hrec).
Qed.

Lemma return_logs_nothing_witness :
  log (snd (call Scenario.three_pages UserRepos 3 "t0k3n" 2 1 Scenario.start))
  = log Scenario.start.
Proof.
  exact (return_logs_nothing Scenario.three_pages UserRepos "t0k3n" 2 3 1 Scenario.start
           _ _ eq_refl).
Defined.

Lemma log_line_of_plain (f : listing) (e : exn) :
  is_plain_exception e = true -> log_line f e = log_context f ++ str e.
Proof. destruct e; simpl; intros H; try discriminate; reflexivity. Qed.

(** A failure after [k] full pages is logged once by every active call:
    first the line of the [except] clause that caught the original
    exception, then [k] times the context of the function followed by
    the text of the error raised. *)
Theorem failure_logged_once_per_call (server : transport) (f : listing)
    (access_token : string) (page_size : Z) (k : nat) :
  forall (page : Z) (st : state) (e0 : exn),
  full_pages server f access_token page_size page st k ->
  page_result_of f page_size
    (server (rev (requests_for f access_token page_size page k) ++ sent st)%list
            (page_request f access_token page_size (page + Z.of_nat k))) = Failed e0 ->
  forall fuel, exists e st',
    call server f (S (k + fuel)) access_token page_size page st = (Raise e, st') /\
    log st' = (repeat (log_context f ++ str e)%string k ++ log_line f e0 :: log st)%list.
Proof.
  induction k as [|k IH]; intros page st e0 Hfull Hfail fuel.
  - simpl in Hfail. rewrite Z.add_0_r in Hfail.
    rewrite call_step. unfold unfolded. rewrite Hfail.
    eexists _, _. split; reflexivity.
  - apply full_pages_head in Hfull. destruct Hfull as [[m Hm] Hrest].
    rewrite requests_for_snoc_state in Hfail.
    replace (page + Z.of_nat (S k)) with (page + 1 + Z.of_nat k) in Hfail by lia.
    destruct (failure_after_full_pages server f access_token page_size k _ _ _
                Hrest Hfail fuel) as (e1 & st1 & Hrun1 & Hplain & _ & _).
    destruct (IH _ _ _ Hrest Hfail fuel) as (e & st' & Hrun & Hlog).
    rewrite Hrun1 in Hrun. injection Hrun as <- <-.
    rewrite call_step. unfold unfolded. rewrite Hm.
    change (S k + fuel)%nat with (S (k + fuel)). rewrite Hrun1.
    eexists _, _. split; [reflexivity|].
    unfold with_log; cbn [log]. rewrite Hlog.
    rewrite (reraised_of_plain f _ Hplain), (log_line_of_plain f _ Hplain).
    cbn [str repeat app]. reflexivity.
Qed.

Lemma failure_logged_once_per_call_witness :
  exists e st',
    call Scenario.late_timeout UserRepos 2 "t0k3n" 2 1 Scenario.start = (Raise e, st') /\
    log st' = (repeat (log_context UserRepos ++ str e)%string 1
                 ++ log_line UserRepos (Timeout "Read timed out. (read timeout=10)")
                 :: log Scenario.start)%list.
Proof.
  refine (failure_logged_once_per_call Scenario.late_timeout UserRepos "t0k3n" 2 1 1
            Scenario.start (Timeout "Read timed out. (read timeout=10)") _ eq_refl 0).
  intros i Hi. destruct i as [|i].
  - eexists. reflexivity.
  - exfalso. inversion Hi as [|? H]. inversion H.
Defined.

Lemma map_items_app_fail (key : string) (x : jvalue) (after : list jvalue) (e : exn) :
  subscript x key = inl e ->
  forall before mapped,
    map_items key before = inr mapped ->
    map_items key (before ++ x :: after) = inl e.
Proof.
  intros Hx. induction before as [|y before IH]; simpl; intros mapped H.
  - rewrite Hx. reflexivity.
  - destruct (subscript y key) as [e'|v]; [discriminate|].
    destruct (map_items key before) as [e'|l]; [discriminate|].
    rewrite (IH l eq_refl). reflexivity.
Qed.

Lemma repr_item_key (f : listing) :
  PyText.repr_str (item_key f) = "'" ++ item_key f ++ "'".
Proof. destruct f; reflexivity. Qed.

(** One item without the key spoils the page: when an object of a 200
    array lacks [login] (organizations) or [name] (repositories), the
    call raises, the text of the error being the quoted key, and the
    mappings of the items before it are dropped. *)
Theorem item_without_key_fails (server : transport) (f : listing) (fuel : nat)
    (access_token : string) (page_size page : Z) (st : state) (resp : response)
    (before after : list jvalue) (mapped : list pydict)
    (fields : list (string * jvalue)) :
  server (sent st) (page_request f access_token page_size page) = inr resp ->
  status_code resp = 200 ->
  json resp = inr (JArr (before ++ JObj fields :: after)) ->
  map_items (item_key f) before = inr mapped ->
  lookup (item_key f) fields = None ->
  exists st',
    call server f (S fuel) access_token page_size page st
      = (Raise (Exception_from (KeyError (item_key f))), st') /\
    str (Exception_from (KeyError (item_key f))) = "'" ++ item_key f ++ "'" /\
    sent st' = page_request f access_token page_size page :: sent st.
Proof.
  intros Hsrv Hst Hj Hm Hk.
  rewrite call_step. unfold unfolded.
  rewrite Hsrv, (page_result_of_array f page_size resp _ Hst Hj).
  rewrite (map_items_app_fail (item_key f) (JObj fields) after (KeyError (item_key f)))
    with (mapped := mapped); [| simpl; rewrite Hk; reflexivity | exact Hm].
  eexists. split; [reflexivity|]. split; [apply repr_item_key | reflexivity].
Qed.

Lemma item_without_key_fails_witness :
  exists st',
    call Scenario.three_pages Organizations 1 "t0k3n" 2 1 Scenario.start
      = (Raise (Exception_from (KeyError "login")), st') /\
    str (Exception_from (KeyError "login")) = "'login'" /\
    sent st' = [page_request Organizations "t0k3n" 2 1].
Proof.
  exact (item_without_key_fails Scenario.three_pages Organizations 0 "t0k3n" 2 1
           Scenario.start _ [] [Scenario.repo 12 "beta"] [] _
           eq_refl eq_refl eq_refl eq_refl eq_refl).
Defined.

(** An error answer without a [message]: for a status other than 200
    and a JSON object lacking the key, the call raises an error whose
    text is ['message'], whatever the status and the rest of the body. *)
Theorem error_without_message (server : transport) (f : listing) (fuel : nat)
    (access_token : string) (page_size page : Z) (st : state) (resp : response)
    (fields : list (string * jvalue)) :
  server (sent st) (page_request f access_token page_size page) = inr resp ->
  status_code resp <> 200 ->
  json resp = inr (JObj fields) ->
  lookup "message" fields = None ->
  exists st',
    call server f (S fuel) access_token page_size page st
      = (Raise (Exception_from (KeyError "message")), st') /\
    str (Exception_from (KeyError "message")) = "'message'".
Proof.
  intros Hsrv Hst Hj Hk.
  rewrite call_step. unfold unfolded, page_result_of.
  rewrite Hsrv, Hj. apply Z.eqb_neq in Hst. rewrite Hst. simpl. rewrite Hk.
  eexists. split; reflexivity.
Qed.

(** The body is decoded before the status is looked at: when
    [response.json()] raises, the call fails with that exception as its
    cause, whatever the status code; a decoding error of the
    [RequestException] family gives the fixed message. *)
Theorem undecodable_body_fails_first (server : transport) (f : listing) (fuel : nat)
    (access_token : string) (page_size page : Z) (st : state) (resp : response)
    (e0 : exn) :
  server (sent st) (page_request f access_token page_size page) = inr resp ->
  json resp = inl e0 ->
  exists e st',
    call server f (S fuel) access_token page_size page st = (Raise e, st') /\
    e = (if is_transport e0 then Exception (fixed_message f) else Exception_from e0) /\
    str e = (if is_transport e0 then fixed_message f else str e0) /\
    log st' = log_line f e0 :: log st.
Proof.
  intros Hsrv Hj.
  rewrite call_step. unfold unfolded, page_result_of. rewrite Hsrv, Hj.
  eexists _, _. split; [reflexivity|]. split; [reflexivity|].
  split; [apply str_reraised | reflexivity].
Qed.

(** A 200 answer that is a JSON object instead of an array: the loop
    runs over its keys, so an empty object gives the empty list and any
    other object makes the call raise a [TypeError] wrapped in
    [Exception], after this one request. *)
Theorem object_body_on_success (server : transport) (f : listing) (fuel : nat)
    (access_token : string) (page_size page : Z) (st : state) (resp : response)
    (fields : list (string * jvalue)) :
  server (sent st) (page_request f access_token page_size page) = inr resp ->
  status_code resp = 200 ->
  json resp = inr (JObj fields) ->
  page_size <> 0 ->
  (fields = [] ->
   call server f (S fuel) access_token page_size page st
   = (Return [], with_request (page_request f access_token page_size page) st)) /\
  (fields <> [] ->
   exists detail st',
     call server f (S fuel) access_token page_size page st
       = (Raise (Exception_from (TypeError detail)), st') /\
     sent st' = page_request f access_token page_size page :: sent st).
Proof.
  intros Hsrv Hst Hj Hps.
  rewrite call_step. unfold unfolded, page_result_of. rewrite Hsrv, Hj, Hst.
  split.
  - intros ->.
    cbn [negb Z.eqb Pos.eqb iterate map map_items].
    assert (E : (len (@nil pydict) =? page_size) = false)
      by (apply Z.eqb_neq; unfold len; simpl; lia).
    rewrite E. reflexivity.
  - intros Hne. destruct fields as [|[k v] rest]; [congruence|].
    eexists _, _. split; reflexivity.
Qed.

(** Every request of a call goes to the same URL with the same two
    headers, the token in [Authorization], and asks for [page_size]
    items per page; only the page number changes. *)
Theorem requests_differ_in_page_only (server : transport) (f : listing) (fuel : nat)
    (access_token : string) (page_size page : Z) (st : state) :
  exists n,
    sent (snd (call server f fuel access_token page_size page st))
      = (rev (requests_for f access_token page_size page n) ++ sent st)%list /\
    Forall (fun r =>
              url r = url (page_request f access_token page_size page) /\
              headers r = [("Accept", "vnd.github.v3+json");
                           ("Authorization", "token " ++ access_token)] /\
              lookup "per_page" (params r) = Some (JInt page_size))
           (requests_for f access_token page_size page n).
Proof.
  destruct (run_trace server f access_token page_size fuel page st)
    as (n & _ & Hsent & _ & _).
  exists n. split; [exact Hsent|].
  unfold requests_for. apply Forall_map, Forall_forall. intros i _.
  split; [reflexivity|]. split; [reflexivity|].
  destruct f; reflexivity.
Qed.

Lemma error_without_message_witness :
  exists st',
    call Cases.forbidden UserRepos 1 "t0k3n" 50 1 Scenario.start
      = (Raise (Exception_from (KeyError "message")), st') /\
    str (Exception_from (KeyError "message")) = "'message'".
Proof.
  refine (error_without_message Cases.forbidden UserRepos 0 "t0k3n" 50 1 Scenario.start
            _ _ eq_refl _ eq_refl eq_refl).
  simpl. discriminate.
Defined.

Lemma undecodable_body_fails_first_witness :
  exists e st',
    call Cases.bad_gateway UserRepos 1 "t0k3n" 50 1 Scenario.start = (Raise e, st') /\
    e = Exception "Error retrieving Github repositories for user." /\
    str e = "Error retrieving Github repositories for user." /\
    log st' = ["Request error occurred. Expecting value: line 1 column 1 (char 0)"].
Proof.
  exact (undecodable_body_fails_first Cases.bad_gateway UserRepos 0 "t0k3n" 50 1
           Scenario.start _ _ eq_refl eq_refl).
Defined.

Lemma object_body_on_success_witness :
  exists detail st',
    call Cases.search_answer UserRepos 1 "t0k3n" 50 1 Scenario.start
      = (Raise (Exception_from (TypeError detail)), st') /\
    sent st' = [page_request UserRepos "t0k3n" 50 1].
Proof.
  refine (proj2 (object_body_on_success Cases.search_answer UserRepos 0 "t0k3n" 50 1
                   Scenario.start _ _ eq_refl eq_refl eq_refl _) _);
    discriminate.
Defined.

(** * Further properties of the field factories *)

Import Schemas.
Import Fields.

(** The field of [get_positive_int_field] without extra validators
    loads exactly the integers from 1 on; zero and the negative ones
    are refused with the positive-integer message. *)
Theorem positive_int_field_range (tpl : strings) (int_ : jvalue -> conversion)
    (name : string) (strict required allow_none : bool) (n : Z) :
  deserialize int_ (get_positive_int_field tpl name strict required None allow_none)
    (Some (JInt n))
  = if n <? 1 then inl [must_be_positive_integer tpl name] else inr (Value n).
Proof.
  unfold deserialize, validated. simpl. rewrite andb_false_r.
  unfold Range. destruct (n <? 1); reflexivity.
Qed.

Lemma validated_same_messages (int_ : jvalue -> conversion) (f1 f2 : Integer) (v : jvalue) :
  strict f1 = strict f2 -> error_messages f1 = error_messages f2 ->
  validated int_ f1 v = validated int_ f2 v.
Proof.
  intros Hs Hm. unfold validated, make_error. rewrite Hs, Hm. reflexivity.
Qed.

(** Whatever [get_positive_int_field] loads, [get_int_field] called
    with the same arguments loads too, with the same result: the
    positive field only adds a check. *)
Theorem positive_int_field_refines_int_field (tpl : strings) (int_ : jvalue -> conversion)
    (name : string) (strict required allow_none : bool)
    (extra : option (list validator)) (value : option jvalue) (r : loaded) :
  deserialize int_ (get_positive_int_field tpl name strict required extra allow_none) value
    = inr r ->
  deserialize int_ (get_int_field tpl name strict required extra allow_none) value = inr r.
Proof.
  unfold deserialize.
  destruct value as [v|]; [|exact (fun H => H)].
  destruct v; try exact (fun H => H);
    rewrite (validated_same_messages int_
               (get_positive_int_field tpl name strict required extra allow_none)
               (get_int_field tpl name strict required extra allow_none))
      by reflexivity;
    match goal with
    | |- context [validated ?i ?f ?v] => destruct (validated i f v) as [m|k]
    end; try exact (fun H => H);
    cbn [validate get_positive_int_field get_int_field map List.concat];
    unfold Range; destruct (k <? 1); cbn [app]; try discriminate; exact (fun H => H).
Qed.

Lemma positive_int_field_refines_int_field_witness :
  deserialize Scenario.no_conversion
    (get_int_field Scenario.templates "limit" true true None false) (Some (JInt 25))
  = inr (Value 25).
Proof.
  exact (positive_int_field_refines_int_field Scenario.templates Scenario.no_conversion
           "limit" true true false None (Some (JInt 25)) (Value 25) eq_refl).
Defined.

(** Absent and null input is settled before any validator runs: the
    field of [get_positive_int_field] answers an absent key with the
    missing-field message when required and loads nothing otherwise,
    and answers [None] with the may-not-be-null message unless
    [allow_none], in which case [None] is loaded although it is no
    positive integer. *)
Theorem positive_int_field_missing_and_null (tpl : strings) (int_ : jvalue -> conversion)
    (name : string) (strict required allow_none : bool)
    (extra : option (list validator)) :
  deserialize int_ (get_positive_int_field tpl name strict required extra allow_none) None
    = (if required then inl [missing_required_field tpl name] else inr Missing) /\
  deserialize int_ (get_positive_int_field tpl name strict required extra allow_none)
    (Some JNull)
    = (if allow_none then inr NoneValue else inl [field_may_not_be_null tpl name]).
Proof.
  split; unfold deserialize; simpl.
  - destruct required; reflexivity.
  - destruct allow_none; reflexivity.
Qed.

(** The range check of [get_non_negative_int_field] has no bound, so
    without extra validators the field loads every integer, the
    negative ones included; a boolean is refused with the
    must-be-integer message. *)
Theorem non_negative_int_field_accepts_negatives (tpl : strings) (ext : more_strings)
    (int_ : jvalue -> conversion) (name : string) (strict required allow_none : bool) :
  (forall n : Z,
     deserialize int_
       (get_non_negative_int_field tpl ext name strict required allow_none None)
       (Some (JInt n)) = inr (Value n)) /\
  (forall (n : Z) (check : validator),
     In check (validate (get_non_negative_int_field tpl ext name strict required
                           allow_none None)) ->
     check n = []) /\
  (forall b : bool,
     deserialize int_
       (get_non_negative_int_field tpl ext name strict required allow_none None)
       (Some (JBool b)) = inl [must_be_integer ext name]).
Proof.
  split; [|split].
  - intros n. unfold deserialize, validated. simpl. rewrite andb_false_r. reflexivity.
  - intros n check [<-|[]]. reflexivity.
  - intros b. unfold deserialize, validated. simpl. rewrite andb_false_r. reflexivity.
Qed.

(** The [workspaceId] of [WorkspaceSchema], a non-negative integer by
    its factory, does load a negative number. *)
Lemma non_negative_int_field_accepts_negatives_witness :
  deserialize Scenario.no_conversion WorkspaceSchema_workspaceId (Some (JInt (-1)))
  = inr (Value (-1)).
Proof.
  exact (proj1 (non_negative_int_field_accepts_negatives Scenario.templates texts
                  Scenario.no_conversion "workspaceId" false true false) (-1)).
Defined.

(** The field of [get_raw_field] hands every value other than [None]
    on as it is; [None] and an absent key follow [allow_none] and
    [required], with the messages made for the field name. *)
Theorem raw_field_loads_unchanged (tpl : strings) (name : string)
    (required allow_none : bool) :
  (forall v, v <> JNull ->
     raw_deserialize (get_raw_field tpl name required allow_none) (Some v)
       = inr (Loaded v)) /\
  raw_deserialize (get_raw_field tpl name required allow_none) (Some JNull)
    = (if allow_none then inr LoadedNone else inl [field_may_not_be_null tpl name]) /\
  raw_deserialize (get_raw_field tpl name required allow_none) None
    = (if required then inl [missing_required_field tpl name] else inr NotLoaded).
Proof.
  split; [|split].
  - intros v Hv. destruct v; try reflexivity. congruence.
  - unfold raw_deserialize. simpl. destruct allow_none; reflexivity.
  - unfold raw_deserialize. simpl. destruct required; reflexivity.
Qed.

Lemma raw_field_loads_unchanged_witness :
  raw_deserialize GenericWorkspaceSchema_workspaceId (Some (JArr [JInt 1; JStr "a"]))
  = inr (Loaded (JArr [JInt 1; JStr "a"])).
Proof.
  refine (proj1 (raw_field_loads_unchanged Scenario.templates "workspaceId" true false)
            (JArr [JInt 1; JStr "a"]) _).
  discriminate.
Defined.

(** The field of [get_string_field] refuses every value that is not a
    string with the must-be-string message, whatever [strict] is: the
    flag does not reach the loading of the field. *)
Theorem string_field_refuses_non_strings (tpl : strings) (ext : more_strings)
    (non_empty_string : string -> str_validator) (name : string)
    (strict required allow_empty allow_none : bool) (extra : validators_arg)
    (v : jvalue) :
  v <> JNull -> (forall s, v <> JStr s) ->
  str_deserialize
    (get_string_field tpl ext non_empty_string name strict required extra
       allow_empty allow_none) (Some v)
  = inl [must_be_string ext name].
Proof.
  intros Hnull Hstr. destruct v; try reflexivity.
  - congruence.
  - exfalso. eapply Hstr. reflexivity.
Qed.

Lemma string_field_refuses_non_strings_witness :
  str_deserialize ZohoWorkspaceSchema_workspaceId (Some (JInt 42))
  = inl ["'workspaceId' must be a string."].
Proof.
  refine (string_field_refuses_non_strings Scenario.templates texts non_empty
            "workspaceId" false true false false NoValidators (JInt 42) _ _).
  - discriminate.
  - intros s. discriminate.
Defined.

(** The validators of [get_string_field]: the non-empty check comes
    first unless [allow_empty], a list of extra validators follows, and
    extra validators given as anything but a list are left out.  A
    string is loaded unchanged when all of them pass, and otherwise
    refused with all their messages in this order. *)
Theorem string_field_validators (tpl : strings) (ext : more_strings)
    (non_empty_string : string -> str_validator) (name : string)
    (strict required allow_empty allow_none : bool) (extra : validators_arg)
    (s : string) :
  let checks :=
    ((if allow_empty then [] else [non_empty_string name])
     ++ match extra with AsList l => l | _ => [] end)%list in
  str_validate
    (get_string_field tpl ext non_empty_string name strict required extra
       allow_empty allow_none) = checks /\
  str_deserialize
    (get_string_field tpl ext non_empty_string name strict required extra
       allow_empty allow_none) (Some (JStr s))
  = match List.concat (map (fun check => check s) checks) with
    | [] => inr (Loaded s)
    | errors => inl errors
    end.
Proof.
  assert (H : str_validate
    (get_string_field tpl ext non_empty_string name strict required extra
       allow_empty allow_none)
    = ((if allow_empty then [] else [non_empty_string name])
       ++ match extra with AsList l => l | _ => [] end)%list).
  { unfold get_string_field. cbn [str_validate].
    destruct allow_empty, extra; cbn [app]; rewrite ?app_nil_r; reflexivity. }
  intros checks. split; [exact H|].
  unfold str_deserialize. rewrite H. reflexivity.
Qed.

Lemma load_items_all (E A : Type) (inner : option jvalue -> E + A)
    (items : list jvalue) (result : list A) :
  Forall2 (fun x a => inner (Some x) = inr a) items result ->
  forall idx, load_items inner idx items = ([], result).
Proof.
  induction 1 as [|x a items result Hx _ IH]; intros idx; simpl.
  - reflexivity.
  - rewrite IH, Hx. reflexivity.
Qed.

Lemma load_items_error (E A : Type) (inner : option jvalue -> E + A) (e : E) :
  forall (items : list jvalue) (i idx : nat) (x : jvalue),
  nth_error items i = Some x -> inner (Some x) = inl e ->
  In ((idx + i)%nat, e) (fst (load_items inner idx items)).
Proof.
  induction items as [|y rest IH]; intros i idx x Hnth Hx.
  - destruct i; discriminate.
  - simpl. destruct (load_items inner (S idx) rest) as [errors result] eqn:Hrest.
    destruct i as [|i]; simpl in Hnth.
    + injection Hnth as ->. rewrite Hx. left. f_equal. lia.
    + specialize (IH i (S idx) x Hnth Hx). rewrite Hrest in IH. simpl in IH.
      replace (idx + S i)%nat with (S idx + i)%nat by lia.
      destruct (inner (Some y)); simpl; auto.
Qed.

(** The field of [get_list_field] refuses what is not a list with the
    must-be-list message, and refuses the empty list with the
    must-not-be-empty message unless [allow_empty], in which case the
    empty list is loaded. *)
Theorem list_field_refuses_non_lists_and_empty (E A : Type) (tpl : strings)
    (ext : more_strings) (name : string) (inner : schema_or_field E A)
    (required allow_empty allow_none : bool) :
  (forall v, v <> JNull -> (forall items, v <> JArr items) ->
     list_deserialize (get_list_field tpl ext name inner required allow_empty allow_none)
       (Some v) = inl (OfField [must_be_list ext name])) /\
  list_deserialize (get_list_field tpl ext name inner required allow_empty allow_none)
    (Some (JArr []))
  = (if allow_empty then inr (Loaded [])
     else inl (OfField [list_must_be_non_empty ext name])).
Proof.
  split.
  - intros v Hnull Harr. destruct v; try reflexivity.
    + congruence.
    + exfalso. eapply Harr. reflexivity.
  - destruct allow_empty; reflexivity.
Qed.

Lemma list_field_refuses_non_lists_and_empty_witness :
  list_deserialize workspace_ids (Some (JObj [("0", JInt 7)]))
  = inl (OfField ["'workspaceIds' must be a list."]).
Proof.
  refine (proj1 (list_field_refuses_non_lists_and_empty (list string) loaded
                   Scenario.templates texts "workspaceIds"
                   (AField (deserialize Scenario.no_conversion WorkspaceSchema_workspaceId))
                   true false false) (JObj [("0", JInt 7)]) _ _).
  - discriminate.
  - intros items. discriminate.
Defined.

(** A non-empty list whose items all load through the item field is
    loaded as the list of their values, in order. *)
Theorem list_field_loads_items_in_order (E A : Type) (tpl : strings)
    (ext : more_strings) (name : string) (inner : schema_or_field E A)
    (required allow_empty allow_none : bool) (items : list jvalue) (result : list A) :
  Forall2 (fun x a =>
             item (get_list_field tpl ext name inner required allow_empty allow_none)
                  (Some x) = inr a) items result ->
  items <> [] ->
  list_deserialize (get_list_field tpl ext name inner required allow_empty allow_none)
    (Some (JArr items)) = inr (Loaded result).
Proof.
  intros Hall Hne. unfold list_deserialize.
  rewrite (load_items_all _ _ _ _ _ Hall).
  destruct Hall as [|x a items result _ _]; [congruence|].
  destruct allow_empty; [reflexivity|].
  cbn [get_list_field list_validate negb map List.concat app]. unfold Length.
  assert (Hlen : (len (a :: result) <? 1) = false)
    by (apply Z.ltb_ge; unfold len; cbn [List.length]; lia).
  rewrite Hlen. reflexivity.
Qed.

Lemma list_field_loads_items_in_order_witness :
  list_deserialize workspace_ids (Some (JArr [JInt 3; JInt (-4)]))
  = inr (Loaded [Value 3; Value (-4)]).
Proof.
  refine (list_field_loads_items_in_order (list string) loaded Scenario.templates texts
            "workspaceIds"
            (AField (deserialize Scenario.no_conversion WorkspaceSchema_workspaceId))
            true false false [JInt 3; JInt (-4)] [Value 3; Value (-4)] _ _).
  - repeat constructor.
  - discriminate.
Defined.

(** An item that fails is reported under its index, with the errors of
    the item field, and nothing is loaded. *)
Theorem list_field_reports_items_by_index (E A : Type) (tpl : strings)
    (ext : more_strings) (name : string) (inner : schema_or_field E A)
    (required allow_empty allow_none : bool) (items : list jvalue)
    (i : nat) (x : jvalue) (e : E) :
  nth_error items i = Some x ->
  item (get_list_field tpl ext name inner required allow_empty allow_none) (Some x)
    = inl e ->
  exists errors,
    list_deserialize (get_list_field tpl ext name inner required allow_empty allow_none)
      (Some (JArr items)) = inl (OfItems errors) /\
    In (i, e) errors.
Proof.
  intros Hnth Hx. unfold list_deserialize.
  pose proof (load_items_error _ _ _ e items i 0%nat x Hnth Hx) as Hin.
  destruct (load_items _ 0 items) as [errors result]. simpl in Hin.
  destruct errors as [|err errors]; [contradiction|].
  eexists. split; [reflexivity | exact Hin].
Qed.

Lemma list_field_reports_items_by_index_witness :
  exists errors,
    list_deserialize workspace_ids (Some (JArr [JInt 3; JStr "four"]))
      = inl (OfItems errors) /\
    In (1%nat, ["'workspaceId' must be an integer."]) errors.
Proof.
  exact (list_field_reports_items_by_index (list string) loaded Scenario.templates texts
           "workspaceIds"
           (AField (deserialize Scenario.no_conversion WorkspaceSchema_workspaceId))
           true false false [JInt 3; JStr "four"] 1 (JStr "four")
           ["'workspaceId' must be an integer."] eq_refl eq_refl).
Defined.
